(** * Object delivery: approach controller and pedestrian stop latch

    A shallow embedding of
    - [packages/pathplanning/src/pathplanning_functions.py]
      ([scanning], [approach], [delivered], [PIDController]) and
    - [packages/object_detection/src/object_detection_node_y.py]
      (class [ObjectDetectionNode]),
    followed by the properties the specification states about them.

    Numbers.  Python's [float] is IEEE 754 binary64, which is Rocq's
    primitive [float]: arithmetic, comparisons and [abs] are the kernel's
    operations, with the same rounding, infinities, signed zeros and NaN.
    Python integer literals that meet floats ([0], [1]) are written as the
    floats they are converted to; so is the integer [0] stored in a
    message field, which is a float field and compares equal to [0.0].
    Object identities travel in the float list [duckiedata], so
    [current_obj] is a float too: [==] between a float and a small integer
    compares the values exactly, as float equality does.  Counters are
    Python integers, here [Z].

    Exceptions.  A call either returns a value or raises; [result] records
    which.  Mutation of [car_control_msg] is explicit state passing: the
    message goes in and the updated message comes out, as the Python
    functions return it. *)

From stdpp Require Import base list gmap sets.
From Stdlib Require Import ZArith Lia Floats.

Set Warnings "-inexact-float".
Set Default Proof Using "Type".

(* ================================================================= *)
(** ** Python values and exceptions *)

Inductive exn : Type :=
  | IndexError
  | ZeroDivisionError
  | ValueError
  | OverflowError.

Inductive result (A : Type) : Type :=
  | Ok (a : A)
  | Raise (e : exn).

Arguments Ok {A} a.
Arguments Raise {A} e.

#[global] Instance result_ret : MRet result := fun A a => Ok a.

#[global] Instance result_bind : MBind result := fun A B f m =>
  match m with
  | Ok a => f a
  | Raise e => Raise e
  end.

(** [l[k]] for a non-negative index. *)
Definition getitem (l : list float) (k : nat) : result float :=
  match l !! k with
  | Some x => Ok x
  | None => Raise IndexError
  end.

(** [x / y] on floats: Python raises when the divisor compares equal to
    zero (either sign) and divides otherwise. *)
Definition truediv (x y : float) : result float :=
  if (y =? 0)%float then Raise ZeroDivisionError else Ok (x / y)%float.

(** The builtin two-argument [min] and [max]: the first argument is kept
    unless the second is strictly smaller (larger). *)
Definition min (a b : float) : float := if (b <? a)%float then b else a.
Definition max (a b : float) : float := if (a <? b)%float then b else a.

(** The value [m * 2^e], [m > 0], rounded to an integer, ties to even. *)
Definition round_half_even (m : positive) (e : Z) : Z :=
  match e with
  | Z0 => Zpos m
  | Zpos _ => Zpos m * 2 ^ e
  | Zneg p =>
      let d := (2 ^ Zpos p)%Z in
      let q := (Zpos m / d)%Z in
      let r := (Zpos m mod d)%Z in
      match (2 * r ?= d)%Z with
      | Lt => q
      | Gt => (q + 1)%Z
      | Eq => if Z.even q then q else (q + 1)%Z
      end
  end.

(** The builtin one-argument [round] on a float: the nearest integer, ties
    to even; NaN and the infinities raise. *)
Definition round (x : float) : result Z :=
  match Prim2SF x with
  | S754_nan => Raise ValueError
  | S754_infinity _ => Raise OverflowError
  | S754_zero _ => Ok 0%Z
  | S754_finite s m e =>
      Ok (if s then (- round_half_even m e)%Z else round_half_even m e)
  end.

(** [range(n)]: the indices [0 .. n-1], none when [n <= 0]. *)
Definition range (n : Z) : list nat := seq 0 (Z.to_nat n).

(* ================================================================= *)
(** ** The command message *)

(** [Twist2DStamped]: the header is kept abstract as a number. *)
Module Twist2DStamped.

Record t : Type := Build { header : Z; v : float; omega : float }.

Definition set_v (x : float) (m : t) : t := Build (header m) x (omega m).
Definition set_omega (x : float) (m : t) : t := Build (header m) (v m) x.

End Twist2DStamped.

(* ================================================================= *)
(** ** pathplanning_functions.py *)

Local Open Scope float_scope.

Definition HEADING_KP : float := 0.25.
Definition HEADING_KI : float := 0.4.
Definition HEADING_KD : float := 0.027.
Definition INT_MAX : float := 0.04.
Definition OMEGA_0 : float := 0.3.
Definition OMEGA_SCALING : float := 1.
Definition OMEGA_OFFSET : float := 0.1.
Definition V_0 : float := 0.02.

Inductive State : Type :=
  | SCANNING
  | IDENTIFIED
  | CAPTURED
  | DELIVERING
  | DELIVERED.

#[global] Instance State_eq_dec : EqDecision State.
Proof. solve_decision. Defined.

Record StateMachine : Type := { state : State }.

Definition StateMachine_init : StateMachine := {| state := SCANNING |}.

Definition transition (self : StateMachine) (new_state : State) : StateMachine :=
  {| state := new_state |}.

Definition PIDController (v_0 theta_ref theta_hat prev_e prev_int delta_t : float)
    (gains : float * float * float)
    : result (float * float * float * float * float) :=
  let e := theta_ref - theta_hat in
  let e_int := prev_int + e * delta_t in
  let e_int := max (min e_int INT_MAX) (- INT_MAX) in
  e_der ← truediv (e - prev_e) delta_t;
  let '(Kp, Ki, Kd) := gains in
  let omega_p := Kp * e in
  let omega_i := Ki * e_int in
  let omega_d := Kd * e_der in
  let omega := omega_p + omega_i + omega_d in
  let omega :=
    if 0 <? omega then omega + OMEGA_OFFSET
    else if omega <? 0 then omega - OMEGA_OFFSET
    else omega in
  mret (v_0, omega, e, e_int, e_der).

(** The loop of [scanning] over the indices still to visit. *)
Fixpoint scanning_loop (idx : list nat) (car_control_msg : Twist2DStamped.t)
    (new_state : State) (duckiedata : list float) (current_obj : float)
    : result (Twist2DStamped.t * State) :=
  match idx with
  | [] => mret (car_control_msg, new_state)
  | i :: idx =>
      id ← getitem duckiedata (i * 3 + 3);
      if id =? current_obj then
        scanning_loop idx
          (Twist2DStamped.set_omega 0 (Twist2DStamped.set_v 0 car_control_msg))
          IDENTIFIED duckiedata current_obj
      else scanning_loop idx car_control_msg new_state duckiedata current_obj
  end.

Definition scanning (car_control_msg : Twist2DStamped.t) (new_state : State)
    (duckiedata : list float) (current_obj : float) (omega : float)
    : result (Twist2DStamped.t * State) :=
  let car_control_msg := Twist2DStamped.set_v 0 car_control_msg in
  let car_control_msg := Twist2DStamped.set_omega omega car_control_msg in
  count ← getitem duckiedata 0;
  n ← round count;
  scanning_loop (range n) car_control_msg new_state duckiedata current_obj.

(** The local variables of [approach] that the loop body may assign. *)
Record approach_vars : Type := ApproachVars {
  av_msg : Twist2DStamped.t;     (* car_control_msg *)
  av_state : State;              (* new_state *)
  av_e : float;                  (* e *)
  av_e_int : float;              (* e_int *)
  av_obj_ids : list float;       (* obj_ids *)
  av_no_det_count : Z;           (* no_det_count *)
  av_close_count : Z;            (* close_count *)
  av_v : float                   (* v *)
}.

(** The body of [if duckiedata[i*3+3] == current_obj:] for detection [i]. *)
Definition approach_match (i : nat) (vars : approach_vars)
    (duckiedata : list float) (current_obj prev_e prev_int delta_t : float)
    (delivery : bool) : result approach_vars :=
  let obj_ids := av_obj_ids vars ++ [current_obj] in
  let no_det_count := 0%Z in
  r ← getitem duckiedata (i * 3 + 1);
  theta ← getitem duckiedata (i * 3 + 2);
  let theta_r := 0 in
  let gains := (HEADING_KP, HEADING_KI, HEADING_KD) in
  '(v, omega, e, e_int, e_der) ←
    PIDController (av_v vars) theta_r theta prev_e prev_int delta_t gains;
  let r_0 := if delivery then 0.2 else 0.16 in
  if 0.25 <? r then
    mret (ApproachVars
      (Twist2DStamped.set_omega (omega * OMEGA_SCALING)
        (Twist2DStamped.set_v v (av_msg vars)))
      (av_state vars) e e_int obj_ids no_det_count 0%Z v)
  else if (r <=? 0.25) && (r_0 <? r) then
    mret (ApproachVars
      (Twist2DStamped.set_omega (omega * OMEGA_SCALING)
        (Twist2DStamped.set_v (0.8 * v) (av_msg vars)))
      (av_state vars) e e_int obj_ids no_det_count 0%Z v)
  else
    let close_count :=
      if abs (omega * OMEGA_SCALING) <? OMEGA_OFFSET + 0.065
      then (av_close_count vars + 1)%Z
      else av_close_count vars in
    let car_control_msg :=
      Twist2DStamped.set_omega (omega * OMEGA_SCALING)
        (Twist2DStamped.set_v 0 (av_msg vars)) in
    if (8 <=? close_count)%Z then
      mret (ApproachVars car_control_msg CAPTURED e e_int obj_ids
              no_det_count 0%Z v)
    else
      mret (ApproachVars car_control_msg (av_state vars) e e_int obj_ids
              no_det_count close_count v).

(** The loop of [approach] over the indices still to visit. *)
Fixpoint approach_loop (idx : list nat) (vars : approach_vars)
    (duckiedata : list float) (current_obj prev_e prev_int delta_t : float)
    (delivery : bool) : result approach_vars :=
  match idx with
  | [] => mret vars
  | i :: idx =>
      id ← getitem duckiedata (i * 3 + 3);
      if id =? current_obj then
        vars ← approach_match i vars duckiedata current_obj prev_e prev_int
                 delta_t delivery;
        approach_loop idx vars duckiedata current_obj prev_e prev_int
          delta_t delivery
      else
        approach_loop idx vars duckiedata current_obj prev_e prev_int
          delta_t delivery
  end.

(** [x in l] on a list of floats.  Every element of [obj_ids] is
    [current_obj] itself and is appended only after [... == current_obj]
    held, so comparing by [==] agrees with Python's identity-or-equality
    test. *)
Definition contains (x : float) (l : list float) : bool :=
  existsb (fun y => y =? x) l.

Definition approach (car_control_msg : Twist2DStamped.t) (new_state : State)
    (duckiedata : list float) (current_obj prev_e prev_int delta_t : float)
    (no_det_count close_count : Z) (v : float) (delivery : bool)
    : result (Twist2DStamped.t * State * float * float * Z * Z) :=
  let e := prev_e in
  let e_int := prev_int in
  let obj_ids := [] in
  count ← getitem duckiedata 0;
  n ← round count;
  vars ← approach_loop (range n)
            (ApproachVars car_control_msg new_state e e_int obj_ids
               no_det_count close_count v)
            duckiedata current_obj prev_e prev_int delta_t delivery;
  let '(ApproachVars car_control_msg new_state e e_int obj_ids
          no_det_count close_count v) := vars in
  if negb (contains current_obj obj_ids) then
    let no_det_count := (no_det_count + 1)%Z in
    let car_control_msg := Twist2DStamped.set_v 0 car_control_msg in
    let car_control_msg := Twist2DStamped.set_omega 0 car_control_msg in
    if (4 <=? no_det_count)%Z then
      mret (car_control_msg, SCANNING, e, e_int, 0%Z, close_count)
    else
      mret (car_control_msg, new_state, e, e_int, no_det_count, close_count)
  else
    mret (car_control_msg, new_state, e, e_int, no_det_count, close_count).

Definition delivered (car_control_msg : Twist2DStamped.t) (new_state : State)
    : Twist2DStamped.t * State :=
  let car_control_msg := Twist2DStamped.set_v 0 car_control_msg in
  let car_control_msg := Twist2DStamped.set_omega 0 car_control_msg in
  (car_control_msg, new_state).

(** Modelled from the spec: the caller of [approach], which is not part of
    the two source files.  The specification gives the approach state
    machine a session that is carried from frame to frame: the control
    state, the PID state and the two hysteresis counters, all starting at
    zero on entry; each detection frame is one call of [approach], whose
    returned values become the next call's inputs, for as long as the state
    stays the approach state the session was entered in. *)
Record Session : Type := {
  ss_state : State;
  ss_prev_e : float;
  ss_prev_int : float;
  ss_no_det_count : Z;
  ss_close_count : Z
}.

(** One detection frame as the caller hands it over: the flat detection
    list and the time since the previous frame. *)
Record Frame : Type := { fr_data : list float; fr_delta_t : float }.

(** Modelled from the spec: the counters and the PID state of a session
    that enters an approach state. *)
Definition session_enter (st : State) : Session :=
  {| ss_state := st; ss_prev_e := 0; ss_prev_int := 0;
     ss_no_det_count := 0; ss_close_count := 0 |}.

(** Modelled from the spec: the caller's handling of one frame, a call of
    [approach] on the session's values whose results become the session. *)
Definition approach_step (car_control_msg : Twist2DStamped.t)
    (current_obj v : float) (delivery : bool) (s : Session) (f : Frame)
    : result (Twist2DStamped.t * Session) :=
  '(car_control_msg, new_state, e, e_int, no_det_count, close_count) ←
    approach car_control_msg (ss_state s) (fr_data f) current_obj
      (ss_prev_e s) (ss_prev_int s) (fr_delta_t f)
      (ss_no_det_count s) (ss_close_count s) v delivery;
  mret (car_control_msg,
        {| ss_state := new_state; ss_prev_e := e; ss_prev_int := e_int;
           ss_no_det_count := no_det_count; ss_close_count := close_count |}).

(** Modelled from the spec: the caller's frame loop.  The frames are
    consumed while the session stays in the state [st] it was entered in;
    the first frame that changes the state ends the run. *)
Fixpoint approach_run (st : State) (car_control_msg : Twist2DStamped.t)
    (current_obj v : float) (delivery : bool) (s : Session)
    (frames : list Frame) : result Session :=
  match frames with
  | [] => mret s
  | f :: frames =>
      if decide (ss_state s = st) then
        '(car_control_msg, s) ←
          approach_step car_control_msg current_obj v delivery s f;
        approach_run st car_control_msg current_obj v delivery s frames
      else mret s
  end.

(* ================================================================= *)
(** ** object_detection_node_y.py *)

(** The collaborators the node imports: the frame-skip count and the three
    filter predicates of [integration_activity], the image decoder of
    [cv_bridge] (with [None] for the [ValueError] it raises on an image it
    cannot decode) and the network wrapper's [predict], which stands for
    the channel flip, the resize and the inference together. *)
Class Perception : Type := {
  CompressedImage : Type;
  image_header : CompressedImage → Z;
  Image : Type;
  BBox : Type;
  NUMBER_FRAMES_SKIPPED : nat;
  filter_by_classes : Z → bool;
  filter_by_bboxes : BBox → bool;
  filter_by_scores : float → bool;
  compressed_imgmsg_to_cv2 : CompressedImage → option Image;
  predict : Image → list BBox * list Z * list float
}.

(** [numpy]'s [a.nonzero()[0]] on a one-dimensional array of truth values:
    the positions that hold a true value. *)
Fixpoint nonzero_from (i : nat) (a : list bool) : list nat :=
  match a with
  | [] => []
  | b :: a => if b then i :: nonzero_from (S i) a else nonzero_from (S i) a
  end.

Definition nonzero (a : list bool) : list nat := nonzero_from 0 a.

Module ObjectDetectionNode.

Record t : Type := Build {
  initialized : bool;
  avoid_duckies : bool;
  v : float;
  _debug : bool;
  frame_id : Z
}.

(** The node as [__init__] leaves it. *)
Definition init : t :=
  {| initialized := true; avoid_duckies := false; v := 0.04;
     _debug := false; frame_id := 0 |}.

Definition set_avoid_duckies (b : bool) (self : t) : t :=
  Build (initialized self) b (v self) (_debug self) (frame_id self).

Definition set_frame_id (n : Z) (self : t) : t :=
  Build (initialized self) (avoid_duckies self) (v self) (_debug self) n.

(** Every method returns the node and the messages it published on the
    car-command topic, oldest first. *)
Definition pub_car_commands (self : t) (stop : bool) (header : Z)
    : t * list Twist2DStamped.t :=
  let car_control_msg := Twist2DStamped.Build header 0 0 in
  let car_control_msg :=
    if stop then Twist2DStamped.set_v 0 car_control_msg
    else Twist2DStamped.set_v (v self) car_control_msg in
  let car_control_msg := Twist2DStamped.set_omega 0 car_control_msg in
  (self, [car_control_msg]).

Definition cb_episode_start (self : t) (header : Z)
    : t * list Twist2DStamped.t :=
  let self := set_avoid_duckies false self in
  pub_car_commands self true header.

Section Methods.
Context `{Perception}.

Definition det2bool (bboxes : list BBox) (classes : list Z)
    (scores : list float) : bool :=
  let box_ids := nonzero (map filter_by_bboxes bboxes) in
  let cla_ids := nonzero (map filter_by_classes classes) in
  let sco_ids := nonzero (map filter_by_scores scores) in
  let box_cla_ids : gset nat := list_to_set box_ids ∩ list_to_set cla_ids in
  let box_cla_sco_ids : gset nat := list_to_set sco_ids ∩ box_cla_ids in
  if bool_decide (0 < size box_cla_sco_ids)%nat then true else false.

(** The debug drawing ([self._debug], never set) publishes only on the
    debug image topic and is left out. *)
Definition image_cb (self : t) (image_msg : CompressedImage)
    : t * list Twist2DStamped.t :=
  if negb (initialized self) then
    pub_car_commands self true (image_header image_msg)
  else
    let self := set_frame_id (frame_id self + 1)%Z self in
    let self :=
      set_frame_id
        (frame_id self `mod` (1 + Z.of_nat NUMBER_FRAMES_SKIPPED))%Z self in
    if negb (frame_id self =? 0)%Z then
      pub_car_commands self (avoid_duckies self) (image_header image_msg)
    else
      match compressed_imgmsg_to_cv2 image_msg with
      | None => (self, [])
      | Some bgr =>
          let '(bboxes, classes, scores) := predict bgr in
          let detection := det2bool bboxes classes scores in
          let self :=
            if detection then set_avoid_duckies true self else self in
          pub_car_commands self (avoid_duckies self) (image_header image_msg)
      end.

End Methods.

Definition on_shutdown (self : t) : t * list Twist2DStamped.t :=
  (self, [Twist2DStamped.Build 0 0 0]).

End ObjectDetectionNode.

(** What [rospy] delivers to the node: an episode-start message, a camera
    image, or the shutdown hook. *)
Inductive Event `{Perception} : Type :=
  | EpisodeStart (header : Z)
  | CameraImage (image_msg : CompressedImage)
  | Shutdown.

Definition is_episode_start `{Perception} (ev : Event) : bool :=
  match ev with
  | EpisodeStart _ => true
  | _ => false
  end.

Definition dispatch `{Perception} (self : ObjectDetectionNode.t) (ev : Event)
    : ObjectDetectionNode.t * list Twist2DStamped.t :=
  match ev with
  | EpisodeStart header => ObjectDetectionNode.cb_episode_start self header
  | CameraImage image_msg => ObjectDetectionNode.image_cb self image_msg
  | Shutdown => ObjectDetectionNode.on_shutdown self
  end.

(** The callbacks run one after the other, in arrival order; the published
    commands accumulate. *)
Fixpoint spin `{Perception} (self : ObjectDetectionNode.t) (evs : list Event)
    : ObjectDetectionNode.t * list Twist2DStamped.t :=
  match evs with
  | [] => (self, [])
  | ev :: evs =>
      let '(self, out) := dispatch self ev in
      let '(self, outs) := spin self evs in
      (self, out ++ outs)
  end.

(* ================================================================= *)
(** ** Definitions used to state the properties *)

(** The controller as the specification writes it: [clamp] to an interval,
    [sign] with value zero at zero, and the friction offset added in the
    direction of a nonzero [omega]. *)
Definition clamp (x lo hi : float) : float :=
  if x <? lo then lo else if hi <? x then hi else x.

Definition sign (x : float) : float :=
  if 0 <? x then 1 else if x <? 0 then -1 else 0.

Definition pid_spec (v0 theta_ref theta_hat prev_error prev_integral delta_t
    Kp Ki Kd : float) : float * float * float * float * float :=
  let e := theta_ref - theta_hat in
  let e_int := clamp (prev_integral + e * delta_t) (-0.04) 0.04 in
  let e_der := (e - prev_error) / delta_t in
  let omega := Kp * e + Ki * e_int + Kd * e_der in
  let omega :=
    if omega =? 0 then omega else omega + sign omega * 0.1 in
  (v0, omega, e, e_int, e_der).

(** A run of controller calls in which each call's [prev_int] is the
    [e_int] the previous call returned; everything else is the caller's
    choice per call.  The result lists the integral terms returned. *)
Record PIDCall : Type := {
  pc_v_0 : float;
  pc_theta_ref : float;
  pc_theta_hat : float;
  pc_prev_e : float;
  pc_delta_t : float;
  pc_gains : float * float * float
}.

Fixpoint pid_chain (prev_int : float) (calls : list PIDCall)
    : result (list float) :=
  match calls with
  | [] => mret []
  | c :: calls =>
      '(_, _, _, e_int, _) ←
        PIDController (pc_v_0 c) (pc_theta_ref c) (pc_theta_hat c)
          (pc_prev_e c) prev_int (pc_delta_t c) (pc_gains c);
      rest ← pid_chain e_int calls;
      mret (e_int :: rest)
  end.

(** [x] lies in the anti-windup interval [[-INT_MAX, INT_MAX]]. *)
Definition within (x : float) : bool := (- INT_MAX <=? x) && (x <=? INT_MAX).

(** A call whose time step is not zero and whose integral increment
    [e * delta_t] is a number. *)
Definition call_ok (c : PIDCall) : Prop :=
  (pc_delta_t c =? 0) = false ∧
  is_nan ((pc_theta_ref c - pc_theta_hat c) * pc_delta_t c) = false.

(** Two calls with a large bearing error, and one call whose bearing is
    NaN. *)
Definition two_calls : list PIDCall :=
  [ {| pc_v_0 := V_0; pc_theta_ref := 0; pc_theta_hat := -3;
       pc_prev_e := 0; pc_delta_t := 0.1;
       pc_gains := (HEADING_KP, HEADING_KI, HEADING_KD) |};
    {| pc_v_0 := V_0; pc_theta_ref := 0; pc_theta_hat := 0.5;
       pc_prev_e := 3; pc_delta_t := 0.1;
       pc_gains := (HEADING_KP, HEADING_KI, HEADING_KD) |} ].

Definition nan_call : PIDCall :=
  {| pc_v_0 := V_0; pc_theta_ref := 0; pc_theta_hat := nan;
     pc_prev_e := 0; pc_delta_t := 0.1;
     pc_gains := (HEADING_KP, HEADING_KI, HEADING_KD) |}.

(** *** Detection frames *)

(** The detection count of a frame: [round(duckiedata[0])]. *)
Definition frame_count (duckiedata : list float) : result Z :=
  count ← getitem duckiedata 0; round count.

(** A frame that announces [n] detections and holds all their triples. *)
Definition well_formed (duckiedata : list float) (n : Z) : Prop :=
  frame_count duckiedata = Ok n ∧
  (3 * Z.to_nat n + 1 ≤ length duckiedata)%nat.

(** Detection [i] carries the identity [current_obj]. *)
Definition is_target (duckiedata : list float) (current_obj : float)
    (i : nat) : bool :=
  match duckiedata !! (i * 3 + 3)%nat with
  | Some id => id =? current_obj
  | None => false
  end.

(** Some detection among the first [n] carries the identity
    [current_obj]. *)
Definition target_seen (duckiedata : list float) (current_obj : float)
    (n : Z) : bool :=
  existsb (is_target duckiedata current_obj) (range n).

(** The zero/zero command on a message. *)
Definition halt (m : Twist2DStamped.t) : Twist2DStamped.t :=
  Twist2DStamped.set_omega 0 (Twist2DStamped.set_v 0 m).

(** Detection [j] is the frame's only detection of [current_obj]; its
    range is [r] and its bearing [theta]. *)
Definition only_target (duckiedata : list float) (current_obj : float)
    (n : Z) (j : nat) (r theta : float) : Prop :=
  (j < Z.to_nat n)%nat ∧
  duckiedata !! (j * 3 + 1)%nat = Some r ∧
  duckiedata !! (j * 3 + 2)%nat = Some theta ∧
  is_target duckiedata current_obj j = true ∧
  ∀ i, (i < Z.to_nat n)%nat → i ≠ j → is_target duckiedata current_obj i = false.

(** The controller's answer to bearing [theta]: reference zero and the
    heading gains. *)
Definition heading (v theta prev_e prev_int delta_t : float)
    : float * float * float * float * float :=
  pid_spec v 0 theta prev_e prev_int delta_t HEADING_KP HEADING_KI HEADING_KD.

(** The capture range [r_0] of [approach]. *)
Definition r_0 (delivery : bool) : float := if delivery then 0.2 else 0.16.

(** The control action is small: [abs(omega*OMEGA_SCALING)] is below
    [OMEGA_OFFSET + 0.065]. *)
Definition settled (omega : float) : bool :=
  abs (omega * OMEGA_SCALING) <? OMEGA_OFFSET + 0.065.

(** The command with speed [v] and the scaled turn rate. *)
Definition steer (v omega : float) (m : Twist2DStamped.t) : Twist2DStamped.t :=
  Twist2DStamped.set_omega (omega * OMEGA_SCALING) (Twist2DStamped.set_v v m).

(** What [approach] returns on a frame with one detection of the target,
    band by band. *)
Definition one_target_outcome (car_control_msg : Twist2DStamped.t)
    (new_state : State) (r theta prev_e prev_int delta_t : float)
    (close_count : Z) (v : float) (delivery : bool)
    : Twist2DStamped.t * State * float * float * Z * Z :=
  let '(_, omega, e, e_int, _) := heading v theta prev_e prev_int delta_t in
  if 0.25 <? r then
    (steer v omega car_control_msg, new_state, e, e_int, 0%Z, 0%Z)
  else if (r <=? 0.25) && (r_0 delivery <? r) then
    (steer (0.8 * v) omega car_control_msg, new_state, e, e_int, 0%Z, 0%Z)
  else
    let close_count :=
      if settled omega then (close_count + 1)%Z else close_count in
    if (8 <=? close_count)%Z then
      (steer 0 omega car_control_msg, CAPTURED, e, e_int, 0%Z, 0%Z)
    else
      (steer 0 omega car_control_msg, new_state, e, e_int, 0%Z, close_count).

(** A frame the caller can process: well formed, with a time step that
    is not zero. *)
Definition frame_ok (f : Frame) : Prop :=
  (∃ n, well_formed (fr_data f) n) ∧ (fr_delta_t f =? 0) = false.

(** The frame holds no detection of [current_obj]. *)
Definition is_miss (current_obj : float) (f : Frame) : bool :=
  match frame_count (fr_data f) with
  | Ok n => negb (target_seen (fr_data f) current_obj n)
  | Raise _ => false
  end.

(** The number of frames without the target at the end of [frames],
    counted back to the last frame that held it. *)
Definition trailing_misses (current_obj : float) (frames : list Frame) : Z :=
  fold_left (λ k f, if is_miss current_obj f then (k + 1)%Z else 0%Z) frames 0%Z.

(** The turn rate of [heading]. *)
Definition heading_omega (v theta prev_e prev_int delta_t : float) : float :=
  (heading v theta prev_e prev_int delta_t).1.1.1.2.

(** What a frame shows of the target: nothing, or one detection at range
    [r], a number, and bearing [theta]. *)
Definition sighted (duckiedata : list float) (current_obj : float) (n : Z)
    (sighting : option (float * float)) : Prop :=
  match sighting with
  | None => target_seen duckiedata current_obj n = false
  | Some (r, theta) =>
      ∃ j, only_target duckiedata current_obj n j r theta ∧ is_nan r = false
  end.

(** *** The perception node *)

(** Detection [i] of a batch passes the box, class and score filters. *)
Definition passes_all `{Perception} (bboxes : list BBox) (classes : list Z)
    (scores : list float) (i : nat) : Prop :=
  ∃ box cls score,
    bboxes !! i = Some box ∧ classes !! i = Some cls ∧
    scores !! i = Some score ∧
    filter_by_bboxes box = true ∧ filter_by_classes cls = true ∧
    filter_by_scores score = true.

(** The image is one the node runs the detector on: the node is set up,
    the frame is not one of the skipped ones, and the image decodes. *)
Definition processed `{Perception} (self : ObjectDetectionNode.t)
    (image_msg : CompressedImage) (bgr : Image) : Prop :=
  ObjectDetectionNode.initialized self = true ∧
  ((ObjectDetectionNode.frame_id self + 1)
     `mod` (1 + Z.of_nat NUMBER_FRAMES_SKIPPED) = 0)%Z ∧
  compressed_imgmsg_to_cv2 image_msg = Some bgr.

(** A command without forward motion. *)
Definition stopped (m : Twist2DStamped.t) : Prop := Twist2DStamped.v m = 0.

(** *** Concrete inputs *)

Definition demo_msg : Twist2DStamped.t := Twist2DStamped.Build 7 1 1.

(** Frames for target 2: the target close by and nearly ahead; another
    object in its place; the target at the two band boundaries. *)
Definition close_frame : Frame :=
  {| fr_data := [1; 0.1; 0.01; 2]; fr_delta_t := 0.1 |}.

Definition other_frame : Frame :=
  {| fr_data := [1; 0.1; 0.01; 3]; fr_delta_t := 0.1 |}.

Definition two_detections : list float := [2; 0.1; 0.01; 3; 0.2; 0.2; 2].

(** A camera with a one-number header whose payload is either lost or the
    detections the network will report, each a box area, a class and a
    score; class 0 is the duckie. *)
#[local] Instance demo_perception : Perception := {|
  CompressedImage := Z * option (list (Z * Z * float));
  image_header := fst;
  Image := list (Z * Z * float);
  BBox := Z;
  NUMBER_FRAMES_SKIPPED := 0;
  filter_by_classes := λ cls, (cls =? 0)%Z;
  filter_by_bboxes := λ area, (area <? 2000)%Z;
  filter_by_scores := λ score, 0.5 <? score;
  compressed_imgmsg_to_cv2 := snd;
  predict := λ dets, (dets.*1.*1, dets.*1.*2, dets.*2)
|}.

Definition duckie_image : Z * option (list (Z * Z * float)) :=
  (1%Z, Some [(5000%Z, 0%Z, 0.9); (1500%Z, 0%Z, 0.8)]).

Definition empty_image : Z * option (list (Z * Z * float)) := (2%Z, Some []).

Definition broken_image : Z * option (list (Z * Z * float)) := (3%Z, None).

(** What the loop of [approach] keeps true of its variables, whatever the
    frame: the speed and the header are the caller's, the state is the
    caller's or CAPTURED, nothing is assigned before the first match, a
    match leaves one of the three band speeds, and a counter below eight
    stays below eight. *)
Definition kept (car_control_msg : Twist2DStamped.t) (new_state : State)
    (prev_e prev_int : float) (close_count : Z) (v : float)
    (vars : approach_vars) : Prop :=
  av_v vars = v ∧
  Twist2DStamped.header (av_msg vars) = Twist2DStamped.header car_control_msg ∧
  (av_state vars = new_state ∨ av_state vars = CAPTURED) ∧
  (av_obj_ids vars = [] →
     av_msg vars = car_control_msg ∧ av_e vars = prev_e ∧
     av_e_int vars = prev_int) ∧
  (av_obj_ids vars ≠ [] →
     (Twist2DStamped.v (av_msg vars) = 0 ∨
      Twist2DStamped.v (av_msg vars) = 0.8 * v ∨
      Twist2DStamped.v (av_msg vars) = v)) ∧
  ((0 <= close_count < 8)%Z → (0 <= av_close_count vars < 8)%Z).

(** Detection [i] is the target, in the stop band of [approach], with a
    small turn rate. *)
Definition close_and_settled (duckiedata : list float)
    (current_obj prev_e prev_int delta_t v : float) (delivery : bool)
    (i : nat) : Prop :=
  is_target duckiedata current_obj i = true ∧
  ∃ r theta,
    duckiedata !! (i * 3 + 1)%nat = Some r ∧
    duckiedata !! (i * 3 + 2)%nat = Some theta ∧
    (0.25 <? r) || ((r <=? 0.25) && (r_0 delivery <? r)) = false ∧
    settled (heading_omega v theta prev_e prev_int delta_t) = true.

(** The number of camera images among the events. *)
Fixpoint images `{Perception} (evs : list Event) : nat :=
  match evs with
  | [] => 0
  | CameraImage _ :: evs => S (images evs)
  | _ :: evs => images evs
  end.


(** More frames for target 2: one that announces two detections and
    holds one; one whose count is not positive; the target seen twice, far
    and then close; the target seen twice close by. *)
Definition short_frame : list float := [2; 0.1; 0.01; 2].

Definition uncounted_frame : list float := [-1; 0.1; 0.01; 2].

Definition far_then_close : list float := [2; 0.3; 0.5; 2; 0.1; 0.01; 2].

Definition twice_close : list float := [2; 0.1; 0.01; 2; 0.1; 0.01; 2].

(** The same camera on a node that skips two frames out of three. *)
Definition skipping_perception : Perception := {|
  CompressedImage := Z * option (list (Z * Z * float));
  image_header := fst;
  Image := list (Z * Z * float);
  BBox := Z;
  NUMBER_FRAMES_SKIPPED := 2;
  filter_by_classes := λ cls, (cls =? 0)%Z;
  filter_by_bboxes := λ area, (area <? 2000)%Z;
  filter_by_scores := λ score, 0.5 <? score;
  compressed_imgmsg_to_cv2 := snd;
  predict := λ dets, (dets.*1.*1, dets.*1.*2, dets.*2)
|}.

(** Four images, the second one broken, with an episode start in between. *)
Definition four_images : list (@Event skipping_perception) :=
  [@CameraImage skipping_perception empty_image;
   @CameraImage skipping_perception broken_image;
   @EpisodeStart skipping_perception 9;
   @CameraImage skipping_perception duckie_image;
   @CameraImage skipping_perception empty_image].

(** The node with its latch set. *)
Definition latched_node : ObjectDetectionNode.t :=
  ObjectDetectionNode.set_avoid_duckies true ObjectDetectionNode.init.

(** What a processable frame shows of the target. *)
Definition frame_view (current_obj : float) (f : Frame)
    (w : option (float * float)) : Prop :=
  (fr_delta_t f =? 0) = false ∧
  ∃ n, well_formed (fr_data f) n ∧ sighted (fr_data f) current_obj n w.

(** The frame qualifies: the target is detected with [r <= r_0] and the
    turn rate the controller answers with is small. *)
Definition qualifies (v : float) (delivery : bool)
    (prev_e prev_int delta_t : float) (w : option (float * float)) : bool :=
  match w with
  | Some (r, theta) =>
      (r <=? r_0 delivery)
      && settled (heading_omega v theta prev_e prev_int delta_t)
  | None => false
  end.

(** The target is detected farther than [r_0]. *)
Definition beyond_r_0 (delivery : bool) (w : option (float * float)) : bool :=
  match w with
  | Some (r, _) => r_0 delivery <? r
  | None => false
  end.

(** The PID state the caller carries on after the frame: the controller's
    error and integral for a sighting, the state as it was without one. *)
Definition pid_after (v prev_e prev_int delta_t : float)
    (w : option (float * float)) : float * float :=
  match w with
  | Some (_, theta) =>
      let '(_, _, e, e_int, _) := heading v theta prev_e prev_int delta_t in
      (e, e_int)
  | None => (prev_e, prev_int)
  end.

(** Counting qualifying frames: a qualifying frame counts one more, a
    target beyond [r_0] starts the count again, any other frame leaves it. *)
Definition counted_step (v : float) (delivery : bool)
    (acc : Z * (float * float)) (fw : Frame * option (float * float))
    : Z * (float * float) :=
  let '(k, (prev_e, prev_int)) := acc in
  ((if beyond_r_0 delivery fw.2 then 0
    else if qualifies v delivery prev_e prev_int (fr_delta_t fw.1) fw.2
    then k + 1 else k)%Z,
   pid_after v prev_e prev_int (fr_delta_t fw.1) fw.2).

(** The number of qualifying frames since the count last started, and the
    PID state, after the frames [seen] of a session entered at zero. *)
Definition counted (v : float) (delivery : bool)
    (seen : list (Frame * option (float * float))) : Z * (float * float) :=
  fold_left (counted_step v delivery) seen (0%Z, (0, 0)).

(** Seven frames with the target close by and nearly ahead, each with
    what it shows. *)
Definition seven_close : list (Frame * option (float * float)) :=
  replicate 7 (close_frame, Some (0.1, 0.01)).

(* ================================================================= *)
(** ** Facts about binary64 comparisons and arithmetic *)

Section FloatFacts.

(** Case analysis on a float through its specification value. *)
Local Ltac by_spec x :=
  rewrite ?ltb_spec, ?leb_spec, ?eqb_spec;
  destruct (Prim2SF x) as [[|]|[|]| |[|] ? ?]; cbn; try done.

Lemma ltb_zero_pos (x : float) : (0 <? x) = true → (x =? 0) = false.
Proof. by_spec x. Qed.

Lemma ltb_zero_neg (x : float) : (x <? 0) = true → (x =? 0) = false.
Proof. by_spec x. Qed.

(** A float that is neither above, below nor equal to zero is NaN. *)
Lemma unordered_zero_nan (x : float) :
  (0 <? x) = false → (x <? 0) = false → (x =? 0) = false → x = nan.
Proof.
  rewrite ltb_spec, ltb_spec, eqb_spec. intros H1 H2 H3.
  apply Prim2SF_inj.
  destruct (Prim2SF x) as [[|]|[|]| |[|] ? ?]; cbn in *; done.
Qed.

Lemma SFsub_SFadd_opp (x y : spec_float) :
  SF64sub x y = SF64add x (SFopp y).
Proof.
  destruct x as [[|]|[|]| |sx mx ex], y as [[|]|[|]| |sy my ey]; try done.
  unfold SF64sub, SF64add, SFsub, SFadd, SFopp. f_equal.
  destruct sy; cbn [negb cond_Zopp]; lia.
Qed.

Lemma sub_add_opp (x y : float) : x - y = x + - y.
Proof.
  apply Prim2SF_inj.
  by rewrite sub_spec, add_spec, opp_spec, SFsub_SFadd_opp.
Qed.

Lemma SFcompare_antisym (x y : spec_float) :
  SFcompare y x = CompOpp <$> SFcompare x y.
Proof.
  destruct x as [[|]|[|]| |[|] mx ex], y as [[|]|[|]| |[|] my ey]; try done; cbn.
  - rewrite (Z.compare_antisym ey ex).
    destruct (ey ?= ex)%Z; cbn; try done.
    do 2 f_equal. symmetry. exact (Pos.compare_cont_antisym mx my Eq).
  - rewrite (Z.compare_antisym ey ex).
    destruct (ey ?= ex)%Z; cbn; try done.
    f_equal. symmetry. exact (Pos.compare_cont_antisym mx my Eq).
Qed.

Lemma shr_1_nonneg mrs : (0 <= shr_m mrs)%Z → (0 <= shr_m (shr_1 mrs))%Z.
Proof. destruct mrs as [[|[p|p|]|[p|p|]] r s]; cbn; lia. Qed.

Lemma iter_shr_1_nonneg p mrs :
  (0 <= shr_m mrs)%Z → (0 <= shr_m (iter_pos shr_1 p mrs))%Z.
Proof.
  revert mrs. induction p as [p IH|p IH|]; intros mrs Hm; cbn.
  - apply IH, IH, shr_1_nonneg, Hm.
  - apply IH, IH, Hm.
  - by apply shr_1_nonneg.
Qed.

Lemma shr_fexp_nonneg m e l :
  (0 <= m)%Z → (0 <= shr_m (fst (shr_fexp prec emax m e l)))%Z.
Proof.
  intros Hm. unfold shr_fexp, shr.
  assert (H0 : (0 <= shr_m (shr_record_of_loc m l))%Z)
    by (destruct l as [|[]]; cbn; lia).
  destruct (_ - e)%Z; cbn; try done.
  by apply iter_shr_1_nonneg.
Qed.

Lemma binary_round_aux_not_nan s m e l :
  (0 <= m)%Z → binary_round_aux prec emax s m e l ≠ S754_nan.
Proof.
  intros Hm. unfold binary_round_aux.
  pose proof (shr_fexp_nonneg m e l Hm) as H1.
  destruct (shr_fexp prec emax m e l) as [mrs' e'] eqn:E1. cbn in H1.
  assert (H2 : (0 <= round_nearest_even (shr_m mrs') (loc_of_shr_record mrs'))%Z).
  { unfold round_nearest_even. destruct (loc_of_shr_record mrs') as [|[]]; try done.
    - destruct (Z.even _); lia.
    - lia. }
  pose proof (shr_fexp_nonneg _ e' loc_Exact H2) as H3.
  destruct (shr_fexp prec emax _ e' loc_Exact) as [mrs'' e''] eqn:E2. cbn in H3.
  destruct (shr_m mrs''); try done; by destruct (_ <=? _)%Z.
Qed.

Lemma binary_normalize_not_nan m e sz :
  binary_normalize prec emax m e sz ≠ S754_nan.
Proof.
  destruct m as [|m|m]; cbn; try done; unfold binary_round;
    destruct (shl_align _ _ _) as [mz ez]; by apply binary_round_aux_not_nan.
Qed.

Lemma SFadd_finite_not_nan (x y : spec_float) :
  match x with S754_zero _ | S754_finite _ _ _ => True | _ => False end →
  y ≠ S754_nan → SF64add x y ≠ S754_nan.
Proof.
  destruct x as [[|]|[|]| |sx mx ex], y as [[|]|[|]| |sy my ey]; try done.
  intros _ _. apply binary_normalize_not_nan.
Qed.

Lemma is_nan_spec (x : float) : is_nan x = true ↔ Prim2SF x = S754_nan.
Proof.
  unfold is_nan. rewrite eqb_spec.
  destruct (Prim2SF x) as [[|]|[|]| |[|] m e]; cbn; try done.
  all: unfold SFeqb; cbn; rewrite Z.compare_refl, Pos.compare_cont_refl; done.
Qed.

Lemma ltb_false_leb (x y : float) :
  is_nan x = false → is_nan y = false → (x <? y) = false → (y <=? x) = true.
Proof.
  intros Hx Hy. rewrite ltb_spec, leb_spec. unfold SFltb, SFleb.
  rewrite (SFcompare_antisym (Prim2SF x) (Prim2SF y)).
  apply not_true_iff_false in Hx, Hy. rewrite is_nan_spec in Hx, Hy.
  destruct (SFcompare (Prim2SF x) (Prim2SF y)) as [[]|] eqn:E; cbn; try done.
  destruct (Prim2SF x) as [[|]|[|]| |[|] ? ?], (Prim2SF y) as [[|]|[|]| |[|] ? ?]; done.
Qed.

Lemma eqb_true_refl (x y : float) : (x =? y) = true → (y =? y) = true.
Proof.
  rewrite !eqb_spec. unfold SFeqb.
  destruct (Prim2SF x) as [[|]|[|]| |[|] ? ?],
           (Prim2SF y) as [[|]|[|]| |[|] ? ?]; cbn; try done.
  all: by rewrite Z.compare_refl, Pos.compare_cont_refl.
Qed.

Lemma leb_not_ltb (x y : float) : (x <=? y) = true → (y <? x) = false.
Proof.
  rewrite leb_spec, ltb_spec. unfold SFleb, SFltb.
  rewrite (SFcompare_antisym (Prim2SF x) (Prim2SF y)).
  by destruct (SFcompare (Prim2SF x) (Prim2SF y)) as [[]|].
Qed.

Lemma ltb_not_leb (x y : float) : (x <? y) = true → (y <=? x) = false.
Proof.
  rewrite leb_spec, ltb_spec. unfold SFleb, SFltb.
  rewrite (SFcompare_antisym (Prim2SF x) (Prim2SF y)).
  by destruct (SFcompare (Prim2SF x) (Prim2SF y)) as [[]|].
Qed.


Lemma above_quarter_above_r_0 (delivery : bool) (r : float) :
  (0.25 <? r) = true → (r_0 delivery <? r) = true.
Proof.
  rewrite !ltb_spec. unfold r_0.
  destruct delivery, (Prim2SF r) as [[|]|[|]| |[|] m e]; try done.
  all: set (q := Prim2SF 0.25); vm_compute in (value of q); subst q.
  1: set (q := Prim2SF 0.2); vm_compute in (value of q); subst q.
  2: set (q := Prim2SF 0.16); vm_compute in (value of q); subst q.
  all: unfold SFltb; cbn [SFcompare].
  all: destruct (Z.compare_spec (-54) e), (Z.compare_spec (-55) e);
    try lia; try done.

Qed.

End FloatFacts.

(* ================================================================= *)
(** ** The PID heading controller *)

Section PID.

Lemma above_max_not_below_min (x : float) :
  (INT_MAX <? x) = true → (x <? - INT_MAX) = false.
Proof.
  rewrite !ltb_spec.
  destruct (Prim2SF x) as [[|]|[|]| |[|] ? ?]; cbn; done.
Qed.

(** Python's [max(min(x, INT_MAX), -INT_MAX)] is the clamp to the
    interval, NaN included (both leave it as it is). *)
Lemma anti_windup_clamp (x : float) :
  max (min x INT_MAX) (- INT_MAX) = clamp x (-0.04) 0.04.
Proof.
  unfold max, min, clamp.
  change (-0.04) with (- INT_MAX). change 0.04 with INT_MAX.
  destruct (INT_MAX <? x) eqn:Hhi.
  - by rewrite (above_max_not_below_min x Hhi).
  - done.
Qed.

(** The two signed branches of the source add the offset that the
    specification writes as [sign(omega) * omega_offset]. *)
Lemma friction_offset (omega : float) :
  (if 0 <? omega then omega + OMEGA_OFFSET
   else if omega <? 0 then omega - OMEGA_OFFSET
   else omega)
  = (if omega =? 0 then omega else omega + sign omega * 0.1).
Proof.
  unfold sign. destruct (0 <? omega) eqn:Hpos.
  - by rewrite (ltb_zero_pos _ Hpos).
  - destruct (omega <? 0) eqn:Hneg.
    + rewrite (ltb_zero_neg _ Hneg). by rewrite sub_add_opp.
    + destruct (omega =? 0) eqn:Hz; [done|].
      by rewrite (unordered_zero_nan _ Hpos Hneg Hz).
Qed.

Lemma within_add_not_nan (p y : float) :
  within p = true → is_nan y = false → is_nan (p + y) = false.
Proof.
  intros Hp Hy. apply not_true_is_false. rewrite is_nan_spec, add_spec.
  apply SFadd_finite_not_nan.
  - unfold within in Hp. rewrite !leb_spec in Hp.
    change (- INT_MAX) with (-0.04) in Hp. change INT_MAX with 0.04 in Hp.
    destruct (Prim2SF p) as [[|]|[|]| |[|] m e]; cbn in *; done.
  - intros E. apply is_nan_spec in E. congruence.
Qed.

Lemma anti_windup_within (s : float) :
  is_nan s = false → within (max (min s INT_MAX) (- INT_MAX)) = true.
Proof.
  intros Hs. unfold max, min.
  destruct (INT_MAX <? s) eqn:Hhi; [done|].
  destruct (s <? - INT_MAX) eqn:Hlo; [done|].
  unfold within. apply andb_true_intro; split.
  - by apply ltb_false_leb.
  - by apply ltb_false_leb.
Qed.

Lemma pid_spec_shape
    (v0 theta_ref theta_hat prev_error prev_integral delta_t Kp Ki Kd : float) :
  ∃ omega e e_int e_der,
    pid_spec v0 theta_ref theta_hat prev_error prev_integral delta_t Kp Ki Kd
    = (v0, omega, e, e_int, e_der).
Proof. unfold pid_spec. by eauto. Qed.

Lemma PIDController_spec
    (v0 theta_ref theta_hat prev_error prev_integral delta_t Kp Ki Kd : float) :
  (delta_t =? 0) = false →
  PIDController v0 theta_ref theta_hat prev_error prev_integral delta_t
    (Kp, Ki, Kd)
  = Ok (pid_spec v0 theta_ref theta_hat prev_error prev_integral delta_t
          Kp Ki Kd).
Proof.
  intros Hdt. unfold PIDController, pid_spec, truediv.
  rewrite Hdt. cbn [mbind result_bind mret result_ret].
  by rewrite anti_windup_clamp, friction_offset.
Qed.

(** C2.  For a positive time step, [PIDController] returns exactly the
    tuple [(v0, omega, e, e_int, e_der)] of the specification's formula:
    [e = theta_ref - theta_hat], [e_int] the running integral clamped to
    [[-0.04, 0.04]], [e_der = (e - prev_error) / delta_t], and [omega] the
    weighted sum plus [sign(omega) * omega_offset] when the sum is not
    zero; [v0] comes back unchanged.  The function is pure: the tuple is
    all it produces. *)
Theorem PIDController_formula
    (v0 theta_ref theta_hat prev_error prev_integral delta_t Kp Ki Kd : float) :
  (0 <? delta_t) = true →
  PIDController v0 theta_ref theta_hat prev_error prev_integral delta_t
    (Kp, Ki, Kd)
  = Ok (pid_spec v0 theta_ref theta_hat prev_error prev_integral delta_t
          Kp Ki Kd).
Proof. intros Hdt. by apply PIDController_spec, ltb_zero_pos. Qed.

Lemma PIDController_formula_witness :
  (0 <? 0.1) = true ∧
  PIDController 0.02 0 0.1 0 0 0.1 (HEADING_KP, HEADING_KI, HEADING_KD)
  = Ok (pid_spec 0.02 0 0.1 0 0 0.1 HEADING_KP HEADING_KI HEADING_KD).
Proof.
  split; [reflexivity | apply (PIDController_formula 0.02 0 0.1 0 0 0.1); reflexivity].
Defined.

Lemma PIDController_integral
    (v_0 theta_ref theta_hat prev_e prev_int delta_t : float)
    (gains : float * float * float) :
  (delta_t =? 0) = false →
  ∃ omega e_der,
    PIDController v_0 theta_ref theta_hat prev_e prev_int delta_t gains
    = Ok (v_0, omega, theta_ref - theta_hat,
          max (min (prev_int + (theta_ref - theta_hat) * delta_t) INT_MAX)
            (- INT_MAX),
          e_der).
Proof.
  intros Hdt. unfold PIDController, truediv. rewrite Hdt.
  destruct gains as [[Kp Ki] Kd]. cbn. eauto.
Qed.

Lemma pid_chain_within (calls : list PIDCall) (prev_int : float) :
  within prev_int = true →
  Forall call_ok calls →
  ∃ ints, pid_chain prev_int calls = Ok ints ∧
          length ints = length calls ∧
          Forall (λ e_int, within e_int = true) ints.
Proof.
  intros Hp Hcalls. revert prev_int Hp.
  induction Hcalls as [|c calls [Hdt Hinc] _ IH]; intros prev_int Hp.
  - exists []. by repeat split.
  - destruct (PIDController_integral (pc_v_0 c) (pc_theta_ref c)
      (pc_theta_hat c) (pc_prev_e c) prev_int (pc_delta_t c) (pc_gains c) Hdt)
      as (omega & e_der & Hcall).
    set (e_int := max _ _) in Hcall.
    assert (Hin : within e_int = true)
      by (apply anti_windup_within, within_add_not_nan; done).
    destruct (IH e_int Hin) as (ints & Hrun & Hlen & Hall).
    exists (e_int :: ints). cbn [pid_chain]. rewrite Hcall. cbn.
    rewrite Hrun. cbn. repeat split; [by rewrite Hlen | by constructor].
Qed.

(** C6, as the code has it.  Take any run of [PIDController] calls that
    starts from [prev_int = 0] and feeds each returned [e_int] to the next
    call.  If no call has a zero time step and every integral increment
    [e * delta_t] is a number, then every call returns and every returned
    [e_int] lies in [[-0.04, 0.04]]. *)
Theorem integral_stays_clamped (calls : list PIDCall) :
  Forall call_ok calls →
  ∃ ints, pid_chain 0 calls = Ok ints ∧
          length ints = length calls ∧
          Forall (λ e_int, within e_int = true) ints.
Proof. by apply pid_chain_within. Qed.

Lemma integral_stays_clamped_witness :
  Forall call_ok two_calls ∧
  ∃ ints, pid_chain 0 two_calls = Ok ints ∧
          length ints = length two_calls ∧
          Forall (λ e_int, within e_int = true) ints.
Proof.
  assert (Hok : Forall call_ok two_calls)
    by (repeat constructor; reflexivity).
  split; [exact Hok | exact (integral_stays_clamped two_calls Hok)].
Defined.

(** C6 as stated fails on a NaN bearing: the sum is NaN, both comparisons
    of [min] and [max] with it are false, and the NaN is returned as the
    integral term. *)
Lemma integral_nan_escapes_clamp :
  ¬ ∀ ints, pid_chain 0 [nan_call] = Ok ints →
            Forall (λ e_int, within e_int = true) ints.
Proof.
  intros Hall. specialize (Hall [nan] eq_refl).
  apply Forall_inv in Hall. discriminate Hall.
Qed.

End PID.

(* ================================================================= *)
(** ** Detection frames *)

Section Frames.

Lemma getitem_Some (l : list float) (k : nat) (x : float) :
  l !! k = Some x → getitem l k = Ok x.
Proof. unfold getitem. by intros ->. Qed.

Lemma getitem_lt (l : list float) (k : nat) :
  (k < length l)%nat → ∃ x, l !! k = Some x ∧ getitem l k = Ok x.
Proof.
  intros Hk. destruct (lookup_lt_is_Some_2 l k Hk) as [x Hx].
  exists x. split; [done | by apply getitem_Some].
Qed.

Lemma elem_of_range (n : Z) (i : nat) : i ∈ range n ↔ (i < Z.to_nat n)%nat.
Proof. unfold range. rewrite elem_of_seq. lia. Qed.

Lemma well_formed_index (duckiedata : list float) (n : Z) (i : nat) :
  well_formed duckiedata n → i ∈ range n →
  (i * 3 + 3 < length duckiedata)%nat.
Proof. intros [_ Hlen] Hi%elem_of_range. lia. Qed.

Lemma target_seen_iff (duckiedata : list float) (current_obj : float) (n : Z) :
  target_seen duckiedata current_obj n = true ↔
  ∃ i id, (i < Z.to_nat n)%nat ∧ duckiedata !! (i * 3 + 3)%nat = Some id ∧
          (id =? current_obj) = true.
Proof.
  unfold target_seen. rewrite existsb_exists. split.
  - intros (i & Hi%list_elem_of_In%elem_of_range & Ht). unfold is_target in Ht.
    destruct (duckiedata !! _) as [id|] eqn:E; [|done]. by exists i, id.
  - intros (i & id & Hi & E & Ht). exists i. split.
    + by apply list_elem_of_In, elem_of_range.
    + unfold is_target. by rewrite E.
Qed.

End Frames.

(* ================================================================= *)
(** ** SCANNING *)

Section Scanning.

Lemma scanning_loop_result (duckiedata : list float) (current_obj : float)
    (idx : list nat) (car_control_msg : Twist2DStamped.t) (new_state : State) :
  (∀ i, i ∈ idx → (i * 3 + 3 < length duckiedata)%nat) →
  scanning_loop idx car_control_msg new_state duckiedata current_obj
  = Ok (if existsb (is_target duckiedata current_obj) idx
        then (halt car_control_msg, IDENTIFIED)
        else (car_control_msg, new_state)).
Proof.
  revert car_control_msg new_state.
  induction idx as [|i idx IH]; intros msg st Hidx; [done|].
  destruct (getitem_lt duckiedata (i * 3 + 3)) as (id & Hid & Hget).
  { apply Hidx. left. }
  cbn [scanning_loop existsb]. rewrite Hget. cbn.
  unfold is_target at 1. rewrite Hid.
  destruct (id =? current_obj); cbn [orb].
  - rewrite IH by (intros; apply Hidx; by right).
    by destruct (existsb _ idx).
  - apply IH. intros; apply Hidx; by right.
Qed.

Lemma scanning_result (car_control_msg : Twist2DStamped.t) (new_state : State)
    (duckiedata : list float) (current_obj omega : float) (n : Z) :
  well_formed duckiedata n →
  scanning car_control_msg new_state duckiedata current_obj omega
  = Ok (if target_seen duckiedata current_obj n
        then (Twist2DStamped.Build (Twist2DStamped.header car_control_msg) 0 0,
              IDENTIFIED)
        else (Twist2DStamped.Build (Twist2DStamped.header car_control_msg) 0
                omega,
              new_state)).
Proof.
  intros Hwf. pose proof Hwf as [Hn Hlen]. unfold scanning.
  unfold frame_count in Hn.
  destruct (getitem duckiedata 0) as [count|] eqn:Hc; [|done]. cbn in Hn |- *.
  rewrite Hn. cbn.
  rewrite scanning_loop_result by (intros; by eapply well_formed_index).
  done.
Qed.

(** C7.  [scanning] on a well-formed frame, entered in state SCANNING:
    the returned state is IDENTIFIED if and only if some detection of the
    frame has the identity [current_obj]; on such a frame the returned
    command is exactly [v = 0, omega = 0]; on every other frame the state
    stays SCANNING and the command is [v = 0] with the scanning rate
    [omega] the caller passed. *)
Theorem scanning_to_identified (car_control_msg : Twist2DStamped.t)
    (duckiedata : list float) (current_obj omega : float) (n : Z) :
  well_formed duckiedata n →
  ∃ msg new_state,
    scanning car_control_msg SCANNING duckiedata current_obj omega
    = Ok (msg, new_state) ∧
    (new_state = IDENTIFIED ↔
       ∃ i id, (i < Z.to_nat n)%nat ∧
               duckiedata !! (i * 3 + 3)%nat = Some id ∧
               (id =? current_obj) = true) ∧
    (new_state = IDENTIFIED →
       Twist2DStamped.v msg = 0 ∧ Twist2DStamped.omega msg = 0) ∧
    (new_state ≠ IDENTIFIED →
       new_state = SCANNING ∧
       Twist2DStamped.v msg = 0 ∧ Twist2DStamped.omega msg = omega).
Proof.
  intros Hwf. rewrite (scanning_result _ _ _ _ _ n Hwf).
  pose proof (target_seen_iff duckiedata current_obj n) as Hseen.
  destruct (target_seen duckiedata current_obj n);
    eexists _, _; (split; [reflexivity|]); rewrite <- Hseen; cbn;
    intuition congruence.
Qed.

End Scanning.

Lemma scanning_to_identified_witness :
  well_formed two_detections 2 ∧
  ∃ msg new_state,
    scanning demo_msg SCANNING two_detections 2 OMEGA_0 = Ok (msg, new_state) ∧
    (new_state = IDENTIFIED ↔
       ∃ i id, (i < Z.to_nat 2)%nat ∧
               two_detections !! (i * 3 + 3)%nat = Some id ∧
               (id =? 2) = true) ∧
    (new_state = IDENTIFIED →
       Twist2DStamped.v msg = 0 ∧ Twist2DStamped.omega msg = 0) ∧
    (new_state ≠ IDENTIFIED →
       new_state = SCANNING ∧
       Twist2DStamped.v msg = 0 ∧ Twist2DStamped.omega msg = OMEGA_0).
Proof.
  assert (Hwf : well_formed two_detections 2)
    by (split; [reflexivity | simpl; lia]).
  split; [exact Hwf|].
  exact (scanning_to_identified demo_msg two_detections 2 OMEGA_0 2 Hwf).
Defined.


(* ================================================================= *)
(** ** The approach loop *)

Section Approach.
Context (duckiedata : list float).
Context (current_obj prev_e prev_int delta_t : float) (delivery : bool).

Local Abbreviation loop idx vars :=
  (approach_loop idx vars duckiedata current_obj prev_e prev_int delta_t
     delivery).
Local Abbreviation body i vars :=
  (approach_match i vars duckiedata current_obj prev_e prev_int delta_t
     delivery).

Lemma approach_loop_app (idx1 idx2 : list nat) (vars : approach_vars) :
  loop (idx1 ++ idx2) vars = (loop idx1 vars ≫= λ vars, loop idx2 vars).
Proof.
  revert vars. induction idx1 as [|i idx1 IH]; intros vars; [done|].
  cbn [app approach_loop].
  destruct (getitem duckiedata (i * 3 + 3)) as [id|]; [|done]. cbn.
  destruct (id =? current_obj); [|by apply IH].
  destruct (body i vars) as [vars'|]; [|done]. cbn. apply IH.
Qed.

Lemma approach_loop_no_target (idx : list nat) (vars : approach_vars) :
  (∀ i, i ∈ idx → (i * 3 + 3 < length duckiedata)%nat) →
  existsb (is_target duckiedata current_obj) idx = false →
  loop idx vars = Ok vars.
Proof.
  induction idx as [|i idx IH]; intros Hidx Hnone; [done|].
  destruct (getitem_lt duckiedata (i * 3 + 3)) as (id & Hid & Hget).
  { apply Hidx. left. }
  cbn [existsb] in Hnone. apply orb_false_elim in Hnone as [Hi Hrest].
  unfold is_target in Hi. rewrite Hid in Hi.
  cbn [approach_loop]. rewrite Hget. cbn. rewrite Hi.
  apply IH; [|done]. intros; apply Hidx; by right.
Qed.

(** What one matching detection does, whatever the band. *)
Lemma approach_match_returns (i : nat) (vars : approach_vars) :
  (i * 3 + 3 < length duckiedata)%nat →
  (delta_t =? 0) = false →
  ∃ vars', body i vars = Ok vars' ∧
    av_obj_ids vars' = av_obj_ids vars ++ [current_obj] ∧
    av_no_det_count vars' = 0%Z ∧
    (av_state vars' = av_state vars ∨ av_state vars' = CAPTURED).
Proof.
  intros Hi Hdt.
  destruct (getitem_lt duckiedata (i * 3 + 1)) as (r & _ & Hr); [lia|].
  destruct (getitem_lt duckiedata (i * 3 + 2)) as (theta & _ & Hth); [lia|].
  destruct (PIDController_integral (av_v vars) 0 theta prev_e prev_int delta_t
    (HEADING_KP, HEADING_KI, HEADING_KD) Hdt) as (omega & e_der & Hpid).
  unfold approach_match. rewrite Hr, Hth. cbn -[PIDController].
  rewrite Hpid. cbn -[PIDController].
  repeat case_match; eexists; (split; [reflexivity|]); cbn; auto.
Qed.

Lemma contains_snoc (x : float) (l : list float) :
  (x =? x) = true → contains x (l ++ [x]) = true.
Proof.
  intros Hx. unfold contains. rewrite existsb_app. cbn. rewrite Hx.
  by rewrite orb_true_r.
Qed.

Lemma approach_loop_returns (idx : list nat) (vars : approach_vars) :
  (∀ i, i ∈ idx → (i * 3 + 3 < length duckiedata)%nat) →
  (delta_t =? 0) = false →
  ∃ vars', loop idx vars = Ok vars' ∧
    (av_state vars' = av_state vars ∨ av_state vars' = CAPTURED) ∧
    (existsb (is_target duckiedata current_obj) idx = true →
       contains current_obj (av_obj_ids vars') = true ∧
       av_no_det_count vars' = 0%Z).
Proof.
  intros Hidx Hdt. revert vars Hidx.
  induction idx as [|i idx IH]; intros vars Hidx.
  { exists vars. cbn. split; [done|]. split; [by left | done]. }
  destruct (getitem_lt duckiedata (i * 3 + 3)) as (id & Hid & Hget).
  { apply Hidx. left. }
  assert (Hidx' : ∀ k, k ∈ idx → (k * 3 + 3 < length duckiedata)%nat)
    by (intros; apply Hidx; by right).
  cbn [approach_loop existsb]. rewrite Hget. cbn.
  unfold is_target at 1. rewrite Hid.
  destruct (id =? current_obj) eqn:Hm; cbn [orb]; [|by apply IH].
  destruct (approach_match_returns i vars) as (vars1 & -> & Hids & Hndc & Hst);
    [apply Hidx; left | done |]. cbn.
  destruct (existsb (is_target duckiedata current_obj) idx) eqn:Hrest.
  - destruct (IH vars1 Hidx') as (vars' & -> & Hst' & Hseen).
    exists vars'. split; [done|]. split; [|by auto].
    destruct Hst' as [->| ->]; auto.
  - rewrite approach_loop_no_target by done.
    exists vars1. split; [done|]. split; [done|]. intros _. split; [|done].
    rewrite Hids. apply contains_snoc. by eapply eqb_true_refl.
Qed.

End Approach.

(* ================================================================= *)
(** ** One call of [approach] *)

Section ApproachFrame.
Context (car_control_msg : Twist2DStamped.t) (new_state : State).
Context (duckiedata : list float).
Context (current_obj prev_e prev_int delta_t : float).
Context (no_det_count close_count : Z) (v : float) (delivery : bool).

Local Abbreviation call :=
  (approach car_control_msg new_state duckiedata current_obj prev_e prev_int
     delta_t no_det_count close_count v delivery).

Lemma approach_unfold (n : Z) :
  well_formed duckiedata n →
  call =
  (approach_loop (range n)
     (ApproachVars car_control_msg new_state prev_e prev_int [] no_det_count
        close_count v)
     duckiedata current_obj prev_e prev_int delta_t delivery ≫= λ vars,
   if negb (contains current_obj (av_obj_ids vars)) then
     if (4 <=? av_no_det_count vars + 1)%Z then
       Ok (halt (av_msg vars), SCANNING, av_e vars, av_e_int vars, 0%Z,
           av_close_count vars)
     else
       Ok (halt (av_msg vars), av_state vars, av_e vars, av_e_int vars,
           (av_no_det_count vars + 1)%Z, av_close_count vars)
   else
     Ok (av_msg vars, av_state vars, av_e vars, av_e_int vars,
         av_no_det_count vars, av_close_count vars)).
Proof.
  intros [Hn _]. unfold approach, frame_count in *.
  destruct (getitem duckiedata 0) as [count|]; [|done]. cbn in Hn |- *.
  rewrite Hn. cbn.
  destruct (approach_loop _ _ _ _ _ _ _ _) as [[]|]; [|done]. reflexivity.
Qed.

Lemma approach_no_target (n : Z) :
  well_formed duckiedata n →
  target_seen duckiedata current_obj n = false →
  call =
  Ok (halt car_control_msg,
      if (4 <=? no_det_count + 1)%Z then SCANNING else new_state,
      prev_e, prev_int,
      if (4 <=? no_det_count + 1)%Z then 0%Z else (no_det_count + 1)%Z,
      close_count).
Proof.
  intros Hwf Hnone. rewrite (approach_unfold n Hwf).
  rewrite approach_loop_no_target;
    [|intros; by eapply well_formed_index|done].
  cbn. by destruct (4 <=? _)%Z.
Qed.

Lemma approach_target (n : Z) :
  well_formed duckiedata n →
  target_seen duckiedata current_obj n = true →
  (delta_t =? 0) = false →
  ∃ msg st e e_int close_count',
    call = Ok (msg, st, e, e_int, 0%Z, close_count') ∧
    (st = new_state ∨ st = CAPTURED).
Proof.
  intros Hwf Hseen Hdt. rewrite (approach_unfold n Hwf).
  destruct (approach_loop_returns duckiedata current_obj prev_e prev_int
    delta_t delivery (range n)
    (ApproachVars car_control_msg new_state prev_e prev_int [] no_det_count
       close_count v)) as (vars & -> & Hst & Hin);
    [intros; by eapply well_formed_index|done|].
  destruct (Hin Hseen) as [Hc Hndc]. cbn [mbind result_bind].
  rewrite Hc, Hndc. cbn [negb]. by eauto 10.
Qed.

Lemma range_split (n : Z) (j : nat) :
  (j < Z.to_nat n)%nat →
  range n = seq 0 j ++ j :: seq (S j) (Z.to_nat n - S j).
Proof.
  intros Hj. unfold range.
  replace (Z.to_nat n) with (j + S (Z.to_nat n - S j))%nat at 1 by lia.
  by rewrite seq_app, <- cons_seq.
Qed.

Lemma existsb_false_iff {A} (f : A → bool) (l : list A) :
  existsb f l = false ↔ ∀ x, x ∈ l → f x = false.
Proof.
  induction l as [|a l IH]; cbn.
  - split; [|done]. intros _ x Hx. by apply elem_of_nil in Hx.
  - rewrite orb_false_iff, IH. split.
    + intros [Ha Hl] x [->|Hx]%elem_of_cons; auto.
    + intros Hall. split; [apply Hall; left | intros x Hx; apply Hall; by right].
Qed.

Lemma approach_one_target (n : Z) (j : nat) (r theta : float) :
  well_formed duckiedata n →
  only_target duckiedata current_obj n j r theta →
  (delta_t =? 0) = false →
  call = Ok (one_target_outcome car_control_msg new_state r theta prev_e
               prev_int delta_t close_count v delivery).
Proof.
  intros Hwf (Hj & Hr & Hth & Hid & Hothers) Hdt.
  rewrite (approach_unfold n Hwf), (range_split n j Hj).
  assert (Hidx : ∀ i, (i < Z.to_nat n)%nat →
                      (i * 3 + 3 < length duckiedata)%nat)
    by (intros; eapply well_formed_index; [done|by apply elem_of_range]).
  rewrite approach_loop_app, approach_loop_no_target; cycle 1.
  { intros i Hi%elem_of_seq. apply Hidx. lia. }
  { apply existsb_false_iff. intros i Hi%elem_of_seq. apply Hothers; lia. }
  cbn [mbind result_bind approach_loop].
  unfold is_target in Hid.
  destruct (duckiedata !! (j * 3 + 3)%nat) as [id|] eqn:Eid; [|done].
  rewrite (getitem_Some _ _ _ Eid). cbn [mbind result_bind]. rewrite Hid.
  unfold approach_match.
  rewrite (getitem_Some _ _ _ Hr), (getitem_Some _ _ _ Hth).
  cbn [mbind result_bind av_v av_obj_ids av_msg av_state av_close_count app].
  rewrite (PIDController_spec _ _ _ _ _ _ _ _ _ Hdt).
  unfold one_target_outcome, heading.
  destruct (pid_spec_shape v 0 theta prev_e prev_int delta_t HEADING_KP
    HEADING_KI HEADING_KD) as (omega & e & e_int & e_der & ->).
  cbn [mbind result_bind mret result_ret].
  assert (Hrest : ∀ vars,
    approach_loop (seq (S j) (Z.to_nat n - S j)) vars duckiedata current_obj
      prev_e prev_int delta_t delivery = Ok vars).
  { intros vars. apply approach_loop_no_target.
    - intros i Hi%elem_of_seq. apply Hidx. lia.
    - apply existsb_false_iff. intros i Hi%elem_of_seq. apply Hothers; lia. }
  assert (Hobj : contains current_obj [current_obj] = true).
  { apply (contains_snoc _ []). by eapply eqb_true_refl. }
  fold (r_0 delivery).
  unfold settled, steer.
  destruct (0.25 <? r); [|destruct ((r <=? 0.25) && _);
    [|destruct (8 <=? _)%Z]];
    cbn [mbind result_bind mret result_ret]; rewrite Hrest;
    cbn [mbind result_bind av_obj_ids]; rewrite Hobj; reflexivity.
Qed.

End ApproachFrame.

(* ================================================================= *)
(** ** Range bands and capture *)

Section Bands.
Context (car_control_msg : Twist2DStamped.t) (new_state : State).
Context (duckiedata : list float).
Context (current_obj prev_e prev_int delta_t : float).
Context (no_det_count close_count : Z) (v : float) (delivery : bool).

Local Abbreviation call :=
  (approach car_control_msg new_state duckiedata current_obj prev_e prev_int
     delta_t no_det_count close_count v delivery).

Lemma within_r_0_not_above_quarter (r : float) :
  (r <=? r_0 delivery) = true → (0.25 <? r) = false.
Proof.
  intros Hle. destruct (0.25 <? r) eqn:Hfar; [|done].
  apply (above_quarter_above_r_0 delivery), ltb_not_leb in Hfar. congruence.
Qed.

(** C8.  On a frame with one detection of the target, the speed band is
    chosen with these boundaries: [r = 0.25] gives [0.8 * v] (the test is
    [r <= 0.25]); [r = r_0] gives the stop band, [v = 0]; and [r_0] is
    [0.2] when [delivery] is true and [0.16] otherwise, the largest range
    that stops: anything above it up to [0.25] drives at [0.8 * v],
    anything up to it stops, anything above [0.25] drives at [v]. *)
Theorem range_bands (n : Z) (j : nat) (r theta : float) :
  well_formed duckiedata n →
  only_target duckiedata current_obj n j r theta →
  (delta_t =? 0) = false →
  let r_0 := if delivery then 0.2 else 0.16 in
  ∃ msg st e e_int no_det_count' close_count',
    call = Ok (msg, st, e, e_int, no_det_count', close_count') ∧
    (r = 0.25 → Twist2DStamped.v msg = 0.8 * v) ∧
    (r = r_0 → Twist2DStamped.v msg = 0) ∧
    ((0.25 <? r) = true → Twist2DStamped.v msg = v) ∧
    ((r_0 <? r) = true → (r <=? 0.25) = true →
       Twist2DStamped.v msg = 0.8 * v) ∧
    ((r <=? r_0) = true → Twist2DStamped.v msg = 0).
Proof.
  intros Hwf Hone Hdt r0.
  rewrite (approach_one_target _ _ _ _ _ _ _ _ _ _ _ n j r theta Hwf Hone Hdt).
  unfold one_target_outcome.
  destruct (pid_spec_shape v 0 theta prev_e prev_int delta_t HEADING_KP
    HEADING_KI HEADING_KD) as (omega & e & e_int & e_der & Hpid).
  unfold heading. rewrite Hpid. fold r0. change (r_0 delivery) with r0.
  assert (Hstop : (r <=? r0) = true →
    (0.25 <? r) = false ∧ (r0 <? r) = false).
  { intros Hle. split; [by apply within_r_0_not_above_quarter|].
    by apply leb_not_ltb. }
  destruct (0.25 <? r) eqn:Hfar.
  - eexists _, _, _, _, _, _. split; [reflexivity|]. cbn.
    repeat split.
    + intros ->. done.
    + intros ->. by destruct delivery.
    + intros _ Hle. apply leb_not_ltb in Hle. congruence.
    + intros Hle. by destruct (Hstop Hle).
  - destruct (r <=? 0.25) eqn:Hq, (r0 <? r) eqn:Hr0; cbn [andb].
    + eexists _, _, _, _, _, _. split; [reflexivity|]. cbn.
      repeat split; try done.
      * intros ->. by destruct delivery.
      * intros Hle. destruct (Hstop Hle). congruence.
    + destruct (8 <=? _)%Z;
        (eexists _, _, _, _, _, _; split; [reflexivity|]; cbn;
         repeat split; try done; intros ->; by destruct delivery).
    + destruct (8 <=? _)%Z;
        (eexists _, _, _, _, _, _; split; [reflexivity|]; cbn;
         repeat split; try done; intros ->; by destruct delivery).
    + destruct (8 <=? _)%Z;
        (eexists _, _, _, _, _, _; split; [reflexivity|]; cbn;
         repeat split; try done; intros ->; by destruct delivery).
Qed.

End Bands.

Lemma range_bands_witness :
  (well_formed [1; 0.25; 0.01; 2] 1 ∧
   only_target [1; 0.25; 0.01; 2] 2 1 0 0.25 0.01 ∧
   (0.1 =? 0) = false) ∧
  let r_0 := if false then 0.2 else 0.16 in
  ∃ msg st e e_int no_det_count' close_count',
    approach demo_msg IDENTIFIED [1; 0.25; 0.01; 2] 2 0 0 0.1 0 0 V_0 false
    = Ok (msg, st, e, e_int, no_det_count', close_count') ∧
    (0.25 = 0.25 → Twist2DStamped.v msg = 0.8 * V_0) ∧
    (0.25 = r_0 → Twist2DStamped.v msg = 0) ∧
    ((0.25 <? 0.25) = true → Twist2DStamped.v msg = V_0) ∧
    ((r_0 <? 0.25) = true → (0.25 <=? 0.25) = true →
       Twist2DStamped.v msg = 0.8 * V_0) ∧
    ((0.25 <=? r_0) = true → Twist2DStamped.v msg = 0).
Proof.
  assert (Hwf : well_formed [1; 0.25; 0.01; 2] 1)
    by (split; [reflexivity | simpl; lia]).
  assert (Hone : only_target [1; 0.25; 0.01; 2] 2 1 0 0.25 0.01)
    by (repeat split; try reflexivity; [simpl; lia | intros i Hi; simpl in Hi; lia]).
  split; [exact (conj Hwf (conj Hone eq_refl))|].
  exact (range_bands demo_msg IDENTIFIED [1; 0.25; 0.01; 2] 2 0 0 0.1 0 0 V_0
           false 1 0 0.25 0.01 Hwf Hone eq_refl).
Defined.

Section Capture.
Context (car_control_msg : Twist2DStamped.t) (new_state : State).
Context (duckiedata : list float).
Context (current_obj prev_e prev_int delta_t : float).
Context (no_det_count close_count : Z) (v : float) (delivery : bool).

Local Abbreviation call :=
  (approach car_control_msg new_state duckiedata current_obj prev_e prev_int
     delta_t no_det_count close_count v delivery).

(** For a range that is a number, the last branch of [approach] is the
    band [r <= r_0]. *)
Lemma stop_band (r : float) :
  is_nan r = false →
  (0.25 <? r) = false →
  ((r <=? 0.25) && (r_0 delivery <? r)) = false →
  (r_0 delivery <? r) = false ∧ (r <=? r_0 delivery) = true.
Proof.
  intros Hr Hfar Hmid.
  assert (Hq : (r <=? 0.25) = true) by (by apply ltb_false_leb).
  rewrite Hq in Hmid. cbn in Hmid. split; [done|].
  apply ltb_false_leb; [by destruct delivery | done..].
Qed.


(** C10, as the code has it.  On a frame of the approach logic in which
    no detection matches the target, the returned PID state is the one
    passed in ([e = prev_e], [e_int = prev_int]) and [close_count] is
    returned unchanged; what changes is the command (zero/zero),
    [no_det_count] (one more, or zero again when it reaches four) and, when
    it reaches four, the state, which becomes SCANNING. *)
Theorem approach_without_target (n : Z) :
  well_formed duckiedata n →
  target_seen duckiedata current_obj n = false →
  ∃ msg st no_det_count',
    call = Ok (msg, st, prev_e, prev_int, no_det_count', close_count) ∧
    Twist2DStamped.v msg = 0 ∧ Twist2DStamped.omega msg = 0 ∧
    ((no_det_count + 1 < 4)%Z →
       st = new_state ∧ no_det_count' = (no_det_count + 1)%Z) ∧
    ((4 <= no_det_count + 1)%Z → st = SCANNING ∧ no_det_count' = 0%Z).
Proof.
  intros Hwf Hnone.
  rewrite (approach_no_target _ _ _ _ _ _ _ _ _ _ _ n Hwf Hnone).
  eexists _, _, _. split; [reflexivity|]. cbn.
  destruct (4 <=? no_det_count + 1)%Z eqn:H4;
    [apply Z.leb_le in H4 | apply Z.leb_gt in H4];
    repeat split; try done; lia.
Qed.

End Capture.


(** C3 as stated fails: seven qualifying frames bring [close_count] to 7;
    a frame without the target follows and leaves it at 7; the next
    qualifying frame captures, although the eight qualifying frames were
    not consecutive. *)
Lemma capture_without_eight_consecutive :
  is_miss 2 other_frame = true ∧
  (∃ s, approach_run IDENTIFIED demo_msg 2 V_0 false
          (session_enter IDENTIFIED) (replicate 7 close_frame ++ [other_frame])
        = Ok s ∧
        ss_state s = IDENTIFIED ∧ ss_close_count s = 7%Z) ∧
  (∃ s, approach_run IDENTIFIED demo_msg 2 V_0 false
          (session_enter IDENTIFIED)
          (replicate 7 close_frame ++ [other_frame; close_frame])
        = Ok s ∧
        ss_state s = CAPTURED).
Proof.
  split; [reflexivity|]. split; eexists; (split; [vm_compute; reflexivity|]);
    by repeat split.
Qed.

(** The specification's scenario: eight frames in a row with the target
    at [r = 0.1] and a small turn rate capture on the eighth, not before,
    and the counter is reset. *)
Lemma eight_close_frames_capture :
  (∃ s, approach_run IDENTIFIED demo_msg 2 V_0 false
          (session_enter IDENTIFIED) (replicate 7 close_frame) = Ok s ∧
        ss_state s = IDENTIFIED ∧ ss_close_count s = 7%Z) ∧
  (∃ s, approach_run IDENTIFIED demo_msg 2 V_0 false
          (session_enter IDENTIFIED) (replicate 8 close_frame) = Ok s ∧
        ss_state s = CAPTURED ∧ ss_close_count s = 0%Z).
Proof.
  split; eexists; (split; [vm_compute; reflexivity|]); by repeat split.
Qed.

Lemma approach_without_target_witness :
  (well_formed (fr_data other_frame) 1 ∧
   target_seen (fr_data other_frame) 2 1 = false) ∧
  ∃ msg st no_det_count',
    approach demo_msg IDENTIFIED (fr_data other_frame) 2 (-0.01) (-0.007) 0.1
      1 5 V_0 false
    = Ok (msg, st, -0.01, -0.007, no_det_count', 5%Z) ∧
    Twist2DStamped.v msg = 0 ∧ Twist2DStamped.omega msg = 0 ∧
    ((1 + 1 < 4)%Z → st = IDENTIFIED ∧ no_det_count' = (1 + 1)%Z) ∧
    ((4 <= 1 + 1)%Z → st = SCANNING ∧ no_det_count' = 0%Z).
Proof.
  assert (Hwf : well_formed (fr_data other_frame) 1)
    by (split; [reflexivity | simpl; lia]).
  split; [by split|].
  exact (approach_without_target demo_msg IDENTIFIED (fr_data other_frame) 2
           (-0.01) (-0.007) 0.1 1 5 V_0 false 1 Hwf eq_refl).
Defined.

(** C10 as stated fails on the fourth frame in a row without the target:
    besides the counter and the command, the returned state changes, from
    IDENTIFIED to SCANNING. *)
Lemma fourth_miss_changes_state :
  target_seen (fr_data other_frame) 2 1 = false ∧
  approach demo_msg IDENTIFIED (fr_data other_frame) 2 0 0 0.1 3 5 V_0 false
  = Ok (halt demo_msg, SCANNING, 0, 0, 0%Z, 5%Z).
Proof. split; reflexivity. Qed.


(* ================================================================= *)
(** ** Frames without the target *)

Section Misses.
Context (current_obj v : float) (delivery : bool).

Lemma is_miss_well_formed (f : Frame) (n : Z) :
  well_formed (fr_data f) n →
  is_miss current_obj f = negb (target_seen (fr_data f) current_obj n).
Proof. intros [Hn _]. unfold is_miss. by rewrite Hn. Qed.

Lemma approach_step_miss (car_control_msg : Twist2DStamped.t) (s : Session)
    (f : Frame) :
  frame_ok f → is_miss current_obj f = true →
  approach_step car_control_msg current_obj v delivery s f
  = Ok (halt car_control_msg,
        {| ss_state :=
             if (4 <=? ss_no_det_count s + 1)%Z then SCANNING else ss_state s;
           ss_prev_e := ss_prev_e s;
           ss_prev_int := ss_prev_int s;
           ss_no_det_count :=
             if (4 <=? ss_no_det_count s + 1)%Z then 0%Z
             else (ss_no_det_count s + 1)%Z;
           ss_close_count := ss_close_count s |}).
Proof.
  intros [[n Hwf] _] Hmiss. rewrite (is_miss_well_formed f n Hwf) in Hmiss.
  apply negb_true_iff in Hmiss. unfold approach_step.
  by rewrite (approach_no_target _ _ _ _ _ _ _ _ _ _ _ n Hwf Hmiss).
Qed.

Lemma approach_step_hit (car_control_msg : Twist2DStamped.t) (s : Session)
    (f : Frame) :
  frame_ok f → is_miss current_obj f = false →
  ∃ msg s',
    approach_step car_control_msg current_obj v delivery s f = Ok (msg, s') ∧
    ss_no_det_count s' = 0%Z ∧
    (ss_state s' = ss_state s ∨ ss_state s' = CAPTURED).
Proof.
  intros [[n Hwf] Hdt] Hhit. rewrite (is_miss_well_formed f n Hwf) in Hhit.
  apply negb_false_iff in Hhit. unfold approach_step.
  destruct (approach_target car_control_msg (ss_state s) (fr_data f)
    current_obj (ss_prev_e s) (ss_prev_int s) (fr_delta_t f)
    (ss_no_det_count s) (ss_close_count s) v delivery n Hwf Hhit Hdt)
    as (msg & st & e & e_int & c & -> & Hst).
  cbn. by eauto.
Qed.

Lemma trailing_misses_snoc (frames : list Frame) (f : Frame) :
  trailing_misses current_obj (frames ++ [f])
  = if is_miss current_obj f
    then (trailing_misses current_obj frames + 1)%Z else 0%Z.
Proof. unfold trailing_misses. by rewrite fold_left_app. Qed.

Lemma fold_misses_nonneg (frames : list Frame) (k : Z) :
  (0 <= k)%Z →
  (0 <= fold_left (λ k f, if is_miss current_obj f then (k + 1)%Z else 0%Z)
          frames k)%Z.
Proof.
  revert k. induction frames as [|f frames IH]; intros k Hk; [done|].
  cbn. apply IH. destruct (is_miss current_obj f); lia.
Qed.

(** While the session stays in its approach state, the miss counter is
    the number of frames without the target since the last frame with
    it, and it is below four. *)
Lemma approach_run_misses (st : State) (frames : list Frame)
    (car_control_msg : Twist2DStamped.t) (s0 : Session) :
  st ≠ SCANNING → st ≠ CAPTURED →
  (ss_no_det_count s0 < 4)%Z →
  Forall frame_ok frames →
  ∃ s, approach_run st car_control_msg current_obj v delivery s0 frames = Ok s ∧
       (ss_state s = st →
          ss_no_det_count s
          = fold_left (λ k f, if is_miss current_obj f then (k + 1)%Z else 0%Z)
              frames (ss_no_det_count s0) ∧
          (ss_no_det_count s < 4)%Z).
Proof.
  intros Hst1 Hst2 Hlt Hok. revert car_control_msg s0 Hlt.
  induction Hok as [|f frames Hf _ IH]; intros msg s0 Hlt;
    [exists s0; by split|].
  cbn [approach_run fold_left]. destruct (decide (ss_state s0 = st)) as [E|E].
  2: { exists s0. split; [done|]. by intros ?. }
  destruct (is_miss current_obj f) eqn:Hmiss.
  - rewrite (approach_step_miss msg s0 f Hf Hmiss). cbn.
    destruct (4 <=? ss_no_det_count s0 + 1)%Z eqn:H4.
    + destruct frames as [|f' frames]; cbn.
      * eexists. split; [done|]. cbn. congruence.
      * rewrite decide_False by (cbn; congruence).
        eexists. split; [done|]. cbn. congruence.
    + destruct (IH (halt msg)
        {| ss_state := ss_state s0; ss_prev_e := ss_prev_e s0;
           ss_prev_int := ss_prev_int s0;
           ss_no_det_count := ss_no_det_count s0 + 1;
           ss_close_count := ss_close_count s0 |}) as (s & -> & Hs);
        [cbn; lia|].
      by exists s.
  - destruct (approach_step_hit msg s0 f Hf Hmiss)
      as (msg' & s1 & -> & Hn & Hs1).
    cbn. destruct (IH msg' s1) as (s & -> & Hs); [lia|].
    exists s. split; [done|]. intros E'. rewrite Hn in Hs. by apply Hs.
Qed.

End Misses.

(** C5.  A session enters IDENTIFIED with its counters at zero and is fed
    processable frames.  As long as it stays in IDENTIFIED,
    [no_det_count] is the number of consecutive frames without the target
    just seen; the next frame sends it back to SCANNING if and only if it
    is the fourth such frame in a row, and the counter is then zero again.
    Every frame without the target returns the zero/zero command and,
    short of the transition, adds one to the counter; a frame with the
    target sets the counter to zero. *)
Theorem identified_back_to_scanning (car_control_msg : Twist2DStamped.t)
    (current_obj v : float) (frames : list Frame) (f : Frame) :
  Forall frame_ok frames → frame_ok f →
  ∃ s,
    approach_run IDENTIFIED car_control_msg current_obj v false
      (session_enter IDENTIFIED) frames = Ok s ∧
    (ss_state s = IDENTIFIED →
       ss_no_det_count s = trailing_misses current_obj frames ∧
       ∀ msg, ∃ msg' s',
         approach_step msg current_obj v false s f = Ok (msg', s') ∧
         (ss_state s' = SCANNING ↔
            is_miss current_obj f = true ∧
            trailing_misses current_obj frames = 3%Z) ∧
         (ss_state s' = SCANNING → ss_no_det_count s' = 0%Z) ∧
         (is_miss current_obj f = true →
            Twist2DStamped.v msg' = 0 ∧ Twist2DStamped.omega msg' = 0 ∧
            (ss_state s' ≠ SCANNING →
               ss_no_det_count s' = (ss_no_det_count s + 1)%Z)) ∧
         (is_miss current_obj f = false → ss_no_det_count s' = 0%Z)).
Proof.
  intros Hok Hf.
  destruct (approach_run_misses current_obj v false IDENTIFIED frames
    car_control_msg (session_enter IDENTIFIED)) as (s & Hrun & Hcount);
    [done..|].
  exists s. split; [done|]. intros Hs. destruct (Hcount Hs) as [Hn Hlt].
  change (ss_no_det_count s = trailing_misses current_obj frames) in Hn.
  split; [done|]. intros msg. rewrite <- Hn.
  assert (Hnonneg : (0 <= ss_no_det_count s)%Z)
    by (rewrite Hn; by apply fold_misses_nonneg).
  destruct (is_miss current_obj f) eqn:Hmiss.
  - rewrite (approach_step_miss current_obj v false msg s f Hf Hmiss).
    eexists _, _. split; [reflexivity|]. cbn. rewrite Hs.
    destruct (4 <=? ss_no_det_count s + 1)%Z eqn:H4;
      [apply Z.leb_le in H4 | apply Z.leb_gt in H4];
      repeat split; try done; try lia; intuition (try congruence; try lia).
  - destruct (approach_step_hit current_obj v false msg s f Hf Hmiss)
      as (msg' & s' & -> & Hn' & Hs').
    exists msg', s'. split; [done|]. rewrite Hs in Hs'.
    repeat split; try done; intuition congruence.
Qed.

Lemma identified_back_to_scanning_witness :
  (Forall frame_ok (replicate 3 other_frame) ∧ frame_ok other_frame) ∧
  ∃ s,
    approach_run IDENTIFIED demo_msg 2 V_0 false
      (session_enter IDENTIFIED) (replicate 3 other_frame) = Ok s ∧
    (ss_state s = IDENTIFIED →
       ss_no_det_count s = trailing_misses 2 (replicate 3 other_frame) ∧
       ∀ msg, ∃ msg' s',
         approach_step msg 2 V_0 false s other_frame = Ok (msg', s') ∧
         (ss_state s' = SCANNING ↔
            is_miss 2 other_frame = true ∧
            trailing_misses 2 (replicate 3 other_frame) = 3%Z) ∧
         (ss_state s' = SCANNING → ss_no_det_count s' = 0%Z) ∧
         (is_miss 2 other_frame = true →
            Twist2DStamped.v msg' = 0 ∧ Twist2DStamped.omega msg' = 0 ∧
            (ss_state s' ≠ SCANNING →
               ss_no_det_count s' = (ss_no_det_count s + 1)%Z)) ∧
         (is_miss 2 other_frame = false → ss_no_det_count s' = 0%Z)).
Proof.
  assert (Hf : frame_ok other_frame).
  { split; [|reflexivity]. exists 1%Z. split; [reflexivity | simpl; lia]. }
  assert (Hfs : Forall frame_ok (replicate 3 other_frame))
    by (simpl; repeat (apply Forall_cons_2; [exact Hf|]); apply Forall_nil_2).
  split; [by split|].
  exact (identified_back_to_scanning demo_msg 2 V_0 (replicate 3 other_frame)
           other_frame Hfs Hf).
Defined.

(* ================================================================= *)
(** ** Qualifying frames counted over a run *)

Section Counting.
Context (current_obj v : float) (delivery : bool).

Lemma approach_step_view (car_control_msg : Twist2DStamped.t) (s : Session)
    (f : Frame) (w : option (float * float)) :
  frame_view current_obj f w →
  (0 <= ss_close_count s < 8)%Z →
  ss_state s ≠ CAPTURED →
  let q := qualifies v delivery (ss_prev_e s) (ss_prev_int s) (fr_delta_t f) w in
  ∃ msg s',
    approach_step car_control_msg current_obj v delivery s f = Ok (msg, s') ∧
    (ss_prev_e s', ss_prev_int s')
    = pid_after v (ss_prev_e s) (ss_prev_int s) (fr_delta_t f) w ∧
    (ss_state s' = CAPTURED ↔ q = true ∧ ss_close_count s = 7%Z) ∧
    (ss_state s' = CAPTURED → ss_close_count s' = 0%Z) ∧
    (ss_state s' ≠ CAPTURED →
       ss_close_count s'
       = (if beyond_r_0 delivery w then 0
          else if q then ss_close_count s + 1 else ss_close_count s)%Z) ∧
    (0 <= ss_close_count s' < 8)%Z ∧
    (ss_state s' = ss_state s ∨ ss_state s' = CAPTURED ∨
     ss_state s' = SCANNING).
Proof.
  intros (Hdt & n & Hwf & Hsight) Hc Hst q. subst q. unfold approach_step.
  destruct w as [[r theta]|]; cbn [qualifies beyond_r_0 pid_after].
  2: { rewrite (approach_no_target _ _ _ _ _ _ _ _ _ _ _ n Hwf Hsight).
       cbn [mbind result_bind mret result_ret].
       eexists _, _. split; [reflexivity|]. cbn.
       destruct (4 <=? _)%Z; repeat split; try done; try lia;
         intuition congruence. }
  destruct Hsight as (j & Hone & Hr).
  rewrite (approach_one_target _ _ _ _ _ _ _ _ _ _ _ n j r theta Hwf Hone Hdt).
  unfold one_target_outcome, heading_omega.
  destruct (heading v theta (ss_prev_e s) (ss_prev_int s) (fr_delta_t f))
    as [[[[v' omega] e] e_int] e_der]. cbn [fst snd].
  destruct (0.25 <? r) eqn:Hfar.
  { pose proof (above_quarter_above_r_0 delivery r Hfar) as Hr0.
    rewrite Hr0, (ltb_not_leb _ _ Hr0). cbn [andb mbind result_bind mret result_ret].
    eexists _, _. split; [reflexivity|]. cbn.
    repeat split; try done; try lia; intuition congruence. }
  destruct ((r <=? 0.25) && (r_0 delivery <? r)) eqn:Hmid.
  { apply andb_true_iff in Hmid as [_ Hr0].
    rewrite Hr0, (ltb_not_leb _ _ Hr0). cbn [andb mbind result_bind mret result_ret].
    eexists _, _. split; [reflexivity|]. cbn.
    repeat split; try done; try lia; intuition congruence. }
  destruct (stop_band delivery r Hr Hfar Hmid) as [-> ->]. cbn [andb].
  destruct (settled omega).
  - destruct (8 <=? ss_close_count s + 1)%Z eqn:H8;
      [apply Z.leb_le in H8 | apply Z.leb_gt in H8];
      cbn [mbind result_bind mret result_ret];
      (eexists _, _; split; [reflexivity|]); cbn;
      repeat split; try done; try lia; intuition (try congruence; try lia).
  - destruct (8 <=? ss_close_count s)%Z eqn:H8;
      [apply Z.leb_le in H8; lia | apply Z.leb_gt in H8].
    cbn [mbind result_bind mret result_ret].
    eexists _, _. split; [reflexivity|]. cbn.
    repeat split; try done; try lia; intuition (try congruence; try lia).
Qed.

Lemma approach_run_counts (st : State)
    (seen : list (Frame * option (float * float)))
    (car_control_msg : Twist2DStamped.t) (s0 : Session) :
  st ≠ SCANNING → st ≠ CAPTURED →
  (0 <= ss_close_count s0 < 8)%Z →
  Forall (λ fw, frame_view current_obj fw.1 fw.2) seen →
  ∃ s,
    approach_run st car_control_msg current_obj v delivery s0 seen.*1 = Ok s ∧
    (ss_state s = st →
       (ss_close_count s, (ss_prev_e s, ss_prev_int s))
       = fold_left (counted_step v delivery) seen
           (ss_close_count s0, (ss_prev_e s0, ss_prev_int s0)) ∧
       (0 <= ss_close_count s < 8)%Z).
Proof.
  intros Hst1 Hst2 Hc Hseen. revert car_control_msg s0 Hc.
  induction Hseen as [|[f w] seen Hf _ IH]; intros msg s0 Hc;
    [exists s0; by split|].
  cbn [fmap list_fmap fst approach_run fold_left].
  destruct (decide (ss_state s0 = st)) as [E|E].
  2: { exists s0. split; [done|]. by intros ?. }
  destruct (approach_step_view msg s0 f w Hf Hc)
    as (msg1 & s1 & -> & Hpid & Hcap & Hreset & Hcount & Hc1 & Hst);
    [congruence|].
  cbn [mbind result_bind].
  destruct (decide (ss_state s1 = st)) as [E1|E1].
  - destruct (IH msg1 s1 Hc1) as (s & Hrun & Hs). exists s. split; [done|].
    intros Es. destruct (Hs Es) as [Hfold Hbound]. split; [|done].
    rewrite Hfold. f_equal. cbn [counted_step fst snd].
    rewrite Hpid, Hcount by congruence. done.
  - exists s1. split.
    + destruct seen as [|fw seen]; [done|]. cbn [fmap list_fmap approach_run].
      by rewrite decide_False.
    + by intros ?.
Qed.

End Counting.

(** C3, as the code has it.  A session enters IDENTIFIED with its
    counters and PID state at zero and is fed processable frames that each
    show the target at most once, at a range that is a number.  As long as
    it stays in IDENTIFIED, [close_count] is the number of qualifying
    frames (target detected with [r <= r_0] and
    [|omega*scaling| < omega_offset + 0.065]) since the last frame whose
    target was farther than [r_0], or since entry: a close but unsettled
    target and a frame without the target leave the count as it is, so the
    frames counted need not be consecutive.  The next frame captures if
    and only if it qualifies and is the eighth so counted, and
    [close_count] is then reset to 0; short of that it counts one more if
    it qualifies, starts the count again if its target is farther than
    [r_0], and leaves it otherwise. *)
Theorem identified_captures_on_eighth (car_control_msg : Twist2DStamped.t)
    (current_obj v : float) (seen : list (Frame * option (float * float)))
    (f : Frame) (w : option (float * float)) :
  Forall (λ fw, frame_view current_obj fw.1 fw.2) seen →
  frame_view current_obj f w →
  ∃ s,
    approach_run IDENTIFIED car_control_msg current_obj v false
      (session_enter IDENTIFIED) seen.*1 = Ok s ∧
    (ss_state s = IDENTIFIED →
       (ss_close_count s, (ss_prev_e s, ss_prev_int s)) = counted v false seen ∧
       let k := (counted v false seen).1 in
       let q :=
         qualifies v false (ss_prev_e s) (ss_prev_int s) (fr_delta_t f) w in
       ∀ msg, ∃ msg' s',
         approach_step msg current_obj v false s f = Ok (msg', s') ∧
         (ss_state s' = CAPTURED ↔ q = true ∧ k = 7%Z) ∧
         (ss_state s' = CAPTURED → ss_close_count s' = 0%Z) ∧
         (ss_state s' ≠ CAPTURED →
            ss_close_count s'
            = (if beyond_r_0 false w then 0 else if q then k + 1 else k)%Z)).
Proof.
  intros Hseen Hf.
  destruct (approach_run_counts current_obj v false IDENTIFIED seen
    car_control_msg (session_enter IDENTIFIED)) as (s & Hrun & Hs);
    [done | done | cbn; lia | done |].
  exists s. split; [done|]. intros Es. destruct (Hs Es) as [Hfold Hc].
  change (fold_left _ seen _) with (counted v false seen) in Hfold.
  split; [done|]. intros k q msg. subst k. rewrite <- Hfold. cbn [fst].
  destruct (approach_step_view current_obj v false msg s f w Hf Hc)
    as (msg' & s' & Hstep & _ & Hcap & Hreset & Hcount & _); [congruence|].
  by exists msg', s'.
Qed.

Lemma identified_captures_on_eighth_witness :
  (Forall (λ fw, frame_view 2 fw.1 fw.2) seven_close ∧
   frame_view 2 close_frame (Some (0.1, 0.01))) ∧
  ∃ s,
    approach_run IDENTIFIED demo_msg 2 V_0 false
      (session_enter IDENTIFIED) seven_close.*1 = Ok s ∧
    (ss_state s = IDENTIFIED →
       (ss_close_count s, (ss_prev_e s, ss_prev_int s))
       = counted V_0 false seven_close ∧
       let k := (counted V_0 false seven_close).1 in
       let q :=
         qualifies V_0 false (ss_prev_e s) (ss_prev_int s)
           (fr_delta_t close_frame) (Some (0.1, 0.01)) in
       ∀ msg, ∃ msg' s',
         approach_step msg 2 V_0 false s close_frame = Ok (msg', s') ∧
         (ss_state s' = CAPTURED ↔ q = true ∧ k = 7%Z) ∧
         (ss_state s' = CAPTURED → ss_close_count s' = 0%Z) ∧
         (ss_state s' ≠ CAPTURED →
            ss_close_count s'
            = if beyond_r_0 false (Some (0.1, 0.01)) then 0%Z
              else if q then (k + 1)%Z else k)).
Proof.
  assert (Hview : frame_view 2 close_frame (Some (0.1, 0.01))).
  { split; [reflexivity|]. exists 1%Z. split.
    - split; [reflexivity | simpl; lia].
    - exists 0%nat. split; [|reflexivity].
      repeat split; try reflexivity; [simpl; lia|].
      intros i Hi; simpl in Hi; lia. }
  assert (Hseen : Forall (λ fw, frame_view 2 fw.1 fw.2) seven_close)
    by (simpl; repeat (apply Forall_cons_2; [exact Hview|]);
        apply Forall_nil_2).
  split; [exact (conj Hseen Hview)|].
  exact (identified_captures_on_eighth demo_msg 2 V_0 seven_close close_frame
           (Some (0.1, 0.01)) Hseen Hview).
Defined.

(** At that input the run has counted seven frames and the eighth
    captures. *)
Lemma eighth_close_frame_captures :
  (counted V_0 false seven_close).1 = 7%Z ∧
  ∃ s msg' s',
    approach_run IDENTIFIED demo_msg 2 V_0 false
      (session_enter IDENTIFIED) seven_close.*1 = Ok s ∧
    qualifies V_0 false (ss_prev_e s) (ss_prev_int s) (fr_delta_t close_frame)
      (Some (0.1, 0.01)) = true ∧
    approach_step demo_msg 2 V_0 false s close_frame = Ok (msg', s') ∧
    ss_state s' = CAPTURED ∧ ss_close_count s' = 0%Z.
Proof.
  split; [reflexivity|]. eexists _, _, _.
  split; [vm_compute; reflexivity|]. split; [reflexivity|].
  split; [vm_compute; reflexivity|]. by split.
Qed.

(* ================================================================= *)
(** ** The perception node: stop latch and publisher *)

Import ObjectDetectionNode.

Section Latch.
Context `{Perception}.

Lemma nonzero_from_spec (a : list bool) (k i : nat) :
  i ∈ nonzero_from k a ↔ (k ≤ i)%nat ∧ a !! (i - k)%nat = Some true.
Proof.
  revert k. induction a as [|b a IH]; intros k; cbn.
  - rewrite elem_of_nil. split; [done|]. by intros [_ ?].
  - destruct b; rewrite ?elem_of_cons, IH.
    + split.
      * intros [->|[Hk Hi]]; [by rewrite Nat.sub_diag|].
        split; [lia|]. by replace (i - k)%nat with (S (i - S k)) by lia.
      * intros [Hk Hi]. destruct (decide (i = k)) as [->|Hne]; [by left|].
        right. split; [lia|].
        by replace (i - k)%nat with (S (i - S k)) in Hi by lia.
    + split.
      * intros [Hk Hi]. split; [lia|].
        by replace (i - k)%nat with (S (i - S k)) by lia.
      * intros [Hk Hi]. destruct (decide (i = k)) as [->|Hne].
        { by rewrite Nat.sub_diag in Hi. }
        split; [lia|].
        by replace (i - k)%nat with (S (i - S k)) in Hi by lia.
Qed.

Lemma elem_of_nonzero_map {A} (f : A → bool) (l : list A) (i : nat) :
  i ∈ nonzero (map f l) ↔ ∃ x, l !! i = Some x ∧ f x = true.
Proof.
  unfold nonzero. rewrite nonzero_from_spec, Nat.sub_0_r.
  change (map f l) with (f <$> l). rewrite list_lookup_fmap.
  destruct (l !! i) as [x|]; cbn.
  - split.
    + intros [_ [= Hf]]. by exists x.
    + intros (x' & [= <-] & Hf). split; [lia | by rewrite Hf].
  - split; [by intros [_ ?] | by intros (x & ? & _)].
Qed.

(** [det2bool] answers true exactly when the three masks share an index. *)
Lemma det2bool_true (bboxes : list BBox) (classes : list Z)
    (scores : list float) :
  det2bool bboxes classes scores = true ↔
  ∃ i, passes_all bboxes classes scores i.
Proof.
  unfold det2bool, passes_all. case_bool_decide as Hsize.
  - split; [intros _|done].
    apply size_pos_elem_of in Hsize as [i Hi].
    rewrite !elem_of_intersection, !elem_of_list_to_set,
      !elem_of_nonzero_map in Hi.
    destruct Hi as [(score & ? & ?) [(box & ? & ?) (cls & ? & ?)]].
    by exists i, box, cls, score.
  - split; [done|]. intros (i & box & cls & score & ? & ? & ? & ? & ? & ?). exfalso.
    apply Nat.nlt_ge, Nat.le_0_r, size_empty_iff in Hsize.
    apply (not_elem_of_empty (C:=gset nat) i). rewrite <- Hsize.
    rewrite !elem_of_intersection, !elem_of_list_to_set,
      !elem_of_nonzero_map. by eauto 10.
Qed.

Lemma pub_car_commands_state (self : ObjectDetectionNode.t) (stop : bool)
    (header : Z) :
  pub_car_commands self stop header
  = (self, [Twist2DStamped.Build header (if stop then 0 else v self) 0]).
Proof. unfold pub_car_commands. by destruct stop. Qed.

(** With the latch set, a callback other than the episode start keeps it
    set and publishes only stopped commands. *)
Lemma latched_dispatch (self : ObjectDetectionNode.t) (ev : Event) :
  avoid_duckies self = true → is_episode_start ev = false →
  avoid_duckies (dispatch self ev).1 = true ∧
  Forall stopped (dispatch self ev).2.
Proof.
  intros Hlatch Hev. destruct ev as [header|image_msg|]; [done| |].
  - cbn [dispatch]. unfold image_cb.
    destruct (initialized self); cbn [negb].
    2: { rewrite pub_car_commands_state. cbn. split; [done|].
         by repeat constructor. }
    cbn [frame_id set_frame_id].
    destruct (_ =? 0)%Z; cbn [negb].
    2: { rewrite pub_car_commands_state. cbn. rewrite Hlatch.
         split; [done|]. by repeat constructor. }
    destruct (compressed_imgmsg_to_cv2 image_msg) as [bgr|]; [|by cbn].
    destruct (predict bgr) as [[bboxes classes] scores].
    destruct (det2bool bboxes classes scores);
      rewrite pub_car_commands_state; cbn; rewrite ?Hlatch;
      (split; [done|]; by repeat constructor).
  - cbn. split; [done|]. by repeat constructor.
Qed.

Lemma latched_spin (evs : list Event) (self : ObjectDetectionNode.t) :
  avoid_duckies self = true →
  forallb (λ ev, negb (is_episode_start ev)) evs = true →
  avoid_duckies (spin self evs).1 = true ∧ Forall stopped (spin self evs).2.
Proof.
  revert self. induction evs as [|ev evs IH]; intros self Hlatch Hevs.
  { cbn. by split. }
  cbn [forallb] in Hevs. apply andb_true_iff in Hevs as [Hev Hevs].
  apply negb_true_iff in Hev.
  destruct (latched_dispatch self ev Hlatch Hev) as [Hlatch1 Hout1].
  cbn [spin]. destruct (dispatch self ev) as [self1 out1]. cbn in Hlatch1, Hout1.
  destruct (IH self1 Hlatch1 Hevs) as [Hlatch2 Hout2].
  destruct (spin self1 evs) as [self2 out2]. cbn in *.
  split; [done|]. by apply Forall_app.
Qed.

Lemma image_cb_processed (self : ObjectDetectionNode.t)
    (image_msg : CompressedImage) (bgr : Image) :
  processed self image_msg bgr →
  image_cb self image_msg
  = let '(bboxes, classes, scores) := predict bgr in
    let self := set_frame_id 0 self in
    let self :=
      if det2bool bboxes classes scores then set_avoid_duckies true self
      else self in
    pub_car_commands self (avoid_duckies self) (image_header image_msg).
Proof.
  intros (Hinit & Hframe & Hdecode). unfold image_cb.
  rewrite Hinit. cbn [negb frame_id set_frame_id]. rewrite Hframe.
  cbn [Z.eqb negb]. by rewrite Hdecode.
Qed.

(** C1.  Let the node run the detector on an image in which some
    detection passes the class, the box and the score filter.  Then the
    stop latch [avoid_duckies] is set by that callback and is still set
    after any further callbacks that are not an episode start, every
    command published from that callback on has [v = 0], and the next
    episode start resets the latch to false (its own command has
    [v = 0] too). *)
Theorem stop_latch (self : ObjectDetectionNode.t)
    (image_msg : CompressedImage) (bgr : Image) (bboxes : list BBox)
    (classes : list Z) (scores : list float) (i : nat) (evs : list Event) :
  processed self image_msg bgr →
  predict bgr = (bboxes, classes, scores) →
  passes_all bboxes classes scores i →
  forallb (λ ev, negb (is_episode_start ev)) evs = true →
  let latched := (image_cb self image_msg).1 in
  let later := (spin latched evs).1 in
  avoid_duckies latched = true ∧
  avoid_duckies later = true ∧
  Forall stopped ((image_cb self image_msg).2 ++ (spin latched evs).2) ∧
  ∀ header,
    avoid_duckies (cb_episode_start later header).1 = false ∧
    Forall stopped (cb_episode_start later header).2.
Proof.
  intros Hproc Hpred Hpass Hevs latched later. subst later latched.
  rewrite (image_cb_processed self image_msg bgr Hproc), Hpred.
  assert (Hdet : det2bool bboxes classes scores = true)
    by (apply det2bool_true; by exists i).
  rewrite Hdet, pub_car_commands_state. cbn [fst snd avoid_duckies set_avoid_duckies].
  set (latched := set_avoid_duckies true (set_frame_id 0 self)).
  destruct (latched_spin evs latched eq_refl Hevs) as [Hlater Hout].
  split; [done|]. split; [done|]. split.
  - apply Forall_app. split; [by repeat constructor | done].
  - intros header. unfold cb_episode_start.
    rewrite pub_car_commands_state. cbn. split; [done|]. by repeat constructor.
Qed.

(** C9, as the code has it.  When the image of a frame that is due for
    processing cannot be decoded, [image_cb] returns without publishing
    any command and without touching the latch; only the frame counter
    has advanced.  Nothing is raised: the node goes on with the next
    events from that state. *)
Theorem undecodable_image_skipped (self : ObjectDetectionNode.t)
    (image_msg : CompressedImage) (evs : list Event) :
  initialized self = true →
  ((frame_id self + 1) `mod` (1 + Z.of_nat NUMBER_FRAMES_SKIPPED) = 0)%Z →
  compressed_imgmsg_to_cv2 image_msg = None →
  image_cb self image_msg = (set_frame_id 0 self, []) ∧
  spin self (CameraImage image_msg :: evs) = spin (set_frame_id 0 self) evs.
Proof.
  intros Hinit Hframe Hdecode.
  assert (Hcb : image_cb self image_msg = (set_frame_id 0 self, [])).
  { unfold image_cb. rewrite Hinit. cbn [negb frame_id set_frame_id].
    rewrite Hframe. cbn [Z.eqb negb]. by rewrite Hdecode. }
  split; [done|]. cbn [spin dispatch]. rewrite Hcb.
  by destruct (spin (set_frame_id 0 self) evs).
Qed.

End Latch.

(** C4, as the code has it.  [pub_car_commands] takes no proposed
    command.  It publishes one message: [v = 0, omega = 0] when [stop] is
    set, and otherwise the node's own speed [self.v] with [omega = 0]; the
    turn rate is zero either way. *)
Theorem publisher_ignores_heading (self : ObjectDetectionNode.t) (stop : bool)
    (header : Z) :
  (pub_car_commands self stop header).2
  = [Twist2DStamped.Build header (if stop then 0 else v self) 0].
Proof. by rewrite pub_car_commands_state. Qed.


(** C4 as stated fails: with the latch clear, a proposed command that
    turns while driving at the approach speed does not come out; the node
    publishes its own speed and no turn. *)
Lemma proposed_command_not_passed :
  ¬ ∀ (proposed : Twist2DStamped.t) (stop : bool),
      (ObjectDetectionNode.pub_car_commands ObjectDetectionNode.init stop 7).2
      = [if stop then Twist2DStamped.Build 7 0 0 else proposed].
Proof.
  intros Hpass.
  specialize (Hpass (Twist2DStamped.Build 7 V_0 OMEGA_0) false).
  discriminate Hpass.
Qed.

Lemma stop_latch_witness :
  (processed ObjectDetectionNode.init duckie_image
     [(5000%Z, 0%Z, 0.9); (1500%Z, 0%Z, 0.8)] ∧
   predict [(5000%Z, 0%Z, 0.9); (1500%Z, 0%Z, 0.8)]
   = ([5000%Z; 1500%Z], [0%Z; 0%Z], [0.9; 0.8]) ∧
   passes_all [5000%Z; 1500%Z] [0%Z; 0%Z] [0.9; 0.8] 1 ∧
   forallb (λ ev, negb (is_episode_start ev))
     [CameraImage empty_image; CameraImage broken_image; Shutdown] = true) ∧
  let latched :=
    (ObjectDetectionNode.image_cb ObjectDetectionNode.init duckie_image).1 in
  let later :=
    (spin latched
       [CameraImage empty_image; CameraImage broken_image; Shutdown]).1 in
  ObjectDetectionNode.avoid_duckies latched = true ∧
  ObjectDetectionNode.avoid_duckies later = true ∧
  Forall stopped
    ((ObjectDetectionNode.image_cb ObjectDetectionNode.init duckie_image).2
     ++ (spin latched
           [CameraImage empty_image; CameraImage broken_image; Shutdown]).2) ∧
  ∀ header,
    ObjectDetectionNode.avoid_duckies
      (ObjectDetectionNode.cb_episode_start later header).1 = false ∧
    Forall stopped (ObjectDetectionNode.cb_episode_start later header).2.
Proof.
  assert (Hproc : processed ObjectDetectionNode.init duckie_image
                    [(5000%Z, 0%Z, 0.9); (1500%Z, 0%Z, 0.8)])
    by (repeat split; reflexivity).
  assert (Hpass : passes_all [5000%Z; 1500%Z] [0%Z; 0%Z] [0.9; 0.8] 1)
    by (exists 1500%Z, 0%Z, 0.8; repeat split; reflexivity).
  split; [exact (conj Hproc (conj eq_refl (conj Hpass eq_refl)))|].
  exact (stop_latch ObjectDetectionNode.init duckie_image _ _ _ _ 1
           [CameraImage empty_image; CameraImage broken_image; Shutdown]
           Hproc eq_refl Hpass eq_refl).
Defined.

Lemma undecodable_image_skipped_witness :
  (ObjectDetectionNode.initialized ObjectDetectionNode.init = true ∧
   ((ObjectDetectionNode.frame_id ObjectDetectionNode.init + 1)
      `mod` (1 + Z.of_nat NUMBER_FRAMES_SKIPPED) = 0)%Z ∧
   compressed_imgmsg_to_cv2 broken_image = None) ∧
  ObjectDetectionNode.image_cb ObjectDetectionNode.init broken_image
  = (ObjectDetectionNode.set_frame_id 0 ObjectDetectionNode.init, []) ∧
  spin ObjectDetectionNode.init
    [CameraImage broken_image; CameraImage empty_image]
  = spin (ObjectDetectionNode.set_frame_id 0 ObjectDetectionNode.init)
      [CameraImage empty_image].
Proof.
  split; [exact (conj eq_refl (conj eq_refl eq_refl))|].
  exact (undecodable_image_skipped ObjectDetectionNode.init broken_image
           [CameraImage empty_image] eq_refl eq_refl eq_refl).
Defined.

(** C9 as stated fails: on an image that cannot be decoded the node
    publishes nothing, so the frame is left without a command. *)
Lemma undecodable_image_publishes_nothing :
  compressed_imgmsg_to_cv2 broken_image = None ∧
  (ObjectDetectionNode.image_cb ObjectDetectionNode.init broken_image).2 = [].
Proof. split; reflexivity. Qed.

(* ================================================================= *)
(** ** More on [approach]: what a matching detection assigns *)

Section ApproachEffects.
Context (duckiedata : list float).
Context (current_obj prev_e prev_int delta_t : float) (delivery : bool).

Local Abbreviation loop idx vars :=
  (approach_loop idx vars duckiedata current_obj prev_e prev_int delta_t
     delivery).
Local Abbreviation body i vars :=
  (approach_match i vars duckiedata current_obj prev_e prev_int delta_t
     delivery).

(** Everything one matching detection assigns. *)
Lemma approach_match_effect (i : nat) (vars : approach_vars) (r theta : float) :
  duckiedata !! (i * 3 + 1)%nat = Some r →
  duckiedata !! (i * 3 + 2)%nat = Some theta →
  (delta_t =? 0) = false →
  ∃ vars', body i vars = Ok vars' ∧
    av_v vars' = av_v vars ∧
    Twist2DStamped.header (av_msg vars') = Twist2DStamped.header (av_msg vars) ∧
    av_e vars' = 0 - theta ∧
    av_e_int vars' = clamp (prev_int + (0 - theta) * delta_t) (-0.04) 0.04 ∧
    Twist2DStamped.omega (av_msg vars')
    = heading_omega (av_v vars) theta prev_e prev_int delta_t * OMEGA_SCALING ∧
    Twist2DStamped.v (av_msg vars')
    = (if 0.25 <? r then av_v vars
       else if (r <=? 0.25) && (r_0 delivery <? r) then 0.8 * av_v vars
       else 0) ∧
    av_obj_ids vars' = av_obj_ids vars ++ [current_obj] ∧
    av_no_det_count vars' = 0%Z ∧
    (av_state vars', av_close_count vars')
    = (if (0.25 <? r) || ((r <=? 0.25) && (r_0 delivery <? r))
       then (av_state vars, 0%Z)
       else
         let c :=
           if settled (heading_omega (av_v vars) theta prev_e prev_int delta_t)
           then (av_close_count vars + 1)%Z else av_close_count vars in
         if (8 <=? c)%Z then (CAPTURED, 0%Z) else (av_state vars, c)).
Proof.
  intros Hr Hth Hdt. unfold approach_match.
  rewrite (getitem_Some _ _ _ Hr), (getitem_Some _ _ _ Hth).
  cbn [mbind result_bind].
  rewrite (PIDController_spec _ _ _ _ _ _ _ _ _ Hdt).
  assert (Hp :
    pid_spec (av_v vars) 0 theta prev_e prev_int delta_t HEADING_KP HEADING_KI
      HEADING_KD
    = (av_v vars, heading_omega (av_v vars) theta prev_e prev_int delta_t,
       0 - theta, clamp (prev_int + (0 - theta) * delta_t) (-0.04) 0.04,
       (0 - theta - prev_e) / delta_t)) by reflexivity.
  rewrite Hp. clear Hp. cbn [mbind result_bind mret result_ret].
  fold (r_0 delivery).
  fold (settled (heading_omega (av_v vars) theta prev_e prev_int delta_t)).
  destruct (0.25 <? r); [|destruct ((r <=? 0.25) && _);
    [|destruct (8 <=? _)%Z eqn:H8]];
    (eexists; split; [reflexivity|];
     cbn [av_v av_msg av_e av_e_int av_obj_ids av_no_det_count av_state
          av_close_count Twist2DStamped.header Twist2DStamped.v
          Twist2DStamped.omega Twist2DStamped.set_v Twist2DStamped.set_omega
          orb];
     rewrite ?H8; by repeat split).
Qed.

(** A property of the loop variables that every matching detection
    preserves holds after the loop. *)
Lemma approach_loop_invariant (P : approach_vars → Prop) (idx : list nat)
    (vars : approach_vars) :
  (∀ i, i ∈ idx → (i * 3 + 3 < length duckiedata)%nat) →
  (delta_t =? 0) = false →
  (∀ i vars vars', i ∈ idx → P vars → body i vars = Ok vars' → P vars') →
  P vars →
  ∃ vars', loop idx vars = Ok vars' ∧ P vars'.
Proof.
  intros Hidx Hdt. revert vars.
  induction idx as [|i idx IH]; intros vars Hstep HP; [by exists vars|].
  destruct (getitem_lt duckiedata (i * 3 + 3)) as (id & Hid & Hget).
  { apply Hidx. left. }
  assert (Hidx' : ∀ k, k ∈ idx → (k * 3 + 3 < length duckiedata)%nat)
    by (intros; apply Hidx; by right).
  assert (Hstep' : ∀ k vars vars', k ∈ idx → P vars →
                     body k vars = Ok vars' → P vars')
    by (intros k ? ? ?; apply Hstep; by right).
  cbn [approach_loop]. rewrite Hget. cbn [mbind result_bind].
  destruct (id =? current_obj); [|by apply IH].
  destruct (approach_match_returns duckiedata current_obj prev_e prev_int
    delta_t delivery i vars) as (vars1 & Hbody & _); [apply Hidx; left|done|].
  rewrite Hbody. cbn [mbind result_bind]. apply IH; [done..|].
  eapply Hstep; [left|done..].
Qed.

End ApproachEffects.

(* ================================================================= *)
(** ** More on [approach]: outcomes on any frame *)

Section ApproachOutcome.
Context (car_control_msg : Twist2DStamped.t) (new_state : State).
Context (duckiedata : list float).
Context (current_obj prev_e prev_int delta_t : float).
Context (no_det_count close_count : Z) (v : float) (delivery : bool).

Local Abbreviation call :=
  (approach car_control_msg new_state duckiedata current_obj prev_e prev_int
     delta_t no_det_count close_count v delivery).
Local Abbreviation start :=
  (ApproachVars car_control_msg new_state prev_e prev_int [] no_det_count
     close_count v).
Local Abbreviation kept :=
  (kept car_control_msg new_state prev_e prev_int close_count v).
Local Abbreviation loop idx vars :=
  (approach_loop idx vars duckiedata current_obj prev_e prev_int delta_t
     delivery).

Lemma kept_step (i : nat) (vars vars' : approach_vars) :
  (i * 3 + 3 < length duckiedata)%nat →
  (delta_t =? 0) = false →
  kept vars →
  approach_match i vars duckiedata current_obj prev_e prev_int delta_t delivery
  = Ok vars' →
  kept vars'.
Proof.
  intros Hi Hdt (Hv & Hh & Hst & Hnil & Hcmd & Hc) Hbody.
  destruct (lookup_lt_is_Some_2 duckiedata (i * 3 + 1)) as [r Hr]; [lia|].
  destruct (lookup_lt_is_Some_2 duckiedata (i * 3 + 2)) as [theta Hth]; [lia|].
  destruct (approach_match_effect duckiedata current_obj prev_e prev_int
    delta_t delivery i vars r theta Hr Hth Hdt)
    as (vars1 & Hbody1 & Hv1 & Hh1 & _ & _ & _ & Hcmd1 & Hids1 & _ & Hsc1).
  rewrite Hbody in Hbody1. injection Hbody1 as <-.
  assert (Hsc : (av_state vars' = av_state vars ∨ av_state vars' = CAPTURED) ∧
                ((0 <= av_close_count vars < 8)%Z →
                 (0 <= av_close_count vars' < 8)%Z)).
  { cbn zeta in Hsc1.
    destruct ((0.25 <? r) || _);
      [|destruct (8 <=? _)%Z eqn:H8; [|apply Z.leb_gt in H8]];
      injection Hsc1 as -> ->; (split; [by auto|]); try lia.
    destruct (settled _); lia. }
  destruct Hsc as [Hst1 Hc1].
  assert (Hne : av_obj_ids vars' ≠ [])
    by (rewrite Hids1; by destruct (av_obj_ids vars)).
  split; [congruence|]. split; [congruence|]. split.
  { destruct Hst1 as [->| ->]; auto. }
  split; [done|]. split; [|by auto].
  intros _. rewrite Hcmd1, Hv.
  destruct (0.25 <? r); [|destruct ((r <=? 0.25) && _)]; auto.
Qed.

Lemma approach_loop_kept (n : Z) :
  well_formed duckiedata n →
  (delta_t =? 0) = false →
  ∃ vars, loop (range n) start = Ok vars ∧ kept vars ∧
    (target_seen duckiedata current_obj n = true →
       contains current_obj (av_obj_ids vars) = true ∧
       av_no_det_count vars = 0%Z) ∧
    (target_seen duckiedata current_obj n = false → vars = start).
Proof.
  intros Hwf Hdt.
  assert (Hidx : ∀ i, i ∈ range n → (i * 3 + 3 < length duckiedata)%nat)
    by (intros; by eapply well_formed_index).
  destruct (approach_loop_invariant duckiedata current_obj prev_e prev_int
    delta_t delivery kept (range n) start Hidx Hdt) as (vars & Hloop & Hkept).
  { intros i vars vars' Hi. apply kept_step; [by apply Hidx | done]. }
  { unfold kept; cbn. repeat split; try done; auto; lia. }
  exists vars. split; [done|]. split; [done|].
  destruct (approach_loop_returns duckiedata current_obj prev_e prev_int
    delta_t delivery (range n) start Hidx Hdt) as (vars' & Hloop' & _ & Hseen).
  rewrite Hloop in Hloop'. injection Hloop' as <-. split; [done|].
  intros Hnone.
  rewrite approach_loop_no_target in Hloop by done. by injection Hloop.
Qed.


(** X7.  On any well-formed frame and a time step that is not zero,
    [approach] returns, the header of the message is untouched, the speed
    it commands is [0], [0.8 * v] or [v], and the state it returns is the
    one passed in, or CAPTURED (only on a frame with the target, whose
    [no_det_count] comes back as 0), or SCANNING (only on a frame without
    the target, whose command is zero/zero). *)
Theorem approach_state_and_command (n : Z) :
  well_formed duckiedata n →
  (delta_t =? 0) = false →
  ∃ msg st e e_int no_det_count' close_count',
    call = Ok (msg, st, e, e_int, no_det_count', close_count') ∧
    Twist2DStamped.header msg = Twist2DStamped.header car_control_msg ∧
    (Twist2DStamped.v msg = 0 ∨ Twist2DStamped.v msg = 0.8 * v ∨
     Twist2DStamped.v msg = v) ∧
    (target_seen duckiedata current_obj n = true →
       (st = new_state ∨ st = CAPTURED) ∧ no_det_count' = 0%Z) ∧
    (target_seen duckiedata current_obj n = false →
       (st = new_state ∨ st = SCANNING) ∧
       Twist2DStamped.v msg = 0 ∧ Twist2DStamped.omega msg = 0).
Proof.
  intros Hwf Hdt. rewrite (approach_unfold _ _ _ _ _ _ _ _ _ _ _ n Hwf).
  destruct (approach_loop_kept n Hwf Hdt)
    as (vars & -> & (Hv & Hh & Hst & Hnil & Hcmd & _) & Hseen & Hnone).
  cbn [mbind result_bind].
  destruct (target_seen duckiedata current_obj n).
  - destruct (Hseen eq_refl) as [Hin Hndc]. rewrite Hin. cbn [negb].
    eexists _, _, _, _, _, _. split; [reflexivity|].
    split; [done|]. split; [|by split].
    apply Hcmd. intros Hnil'. by rewrite Hnil' in Hin.
  - rewrite (Hnone eq_refl). cbn.
    destruct (4 <=? _)%Z; eexists _, _, _, _, _, _;
      (split; [reflexivity|]); cbn; repeat split; auto; done.
Qed.

(** X8.  [approach] keeps the counters in their ranges on any well-formed
    frame, however many detections match: from [0 <= no_det_count < 4] and
    [0 <= close_count < 8] it returns counters in the same ranges. *)
Theorem approach_counters_bounded (n : Z) :
  well_formed duckiedata n →
  (delta_t =? 0) = false →
  (0 <= no_det_count < 4)%Z →
  (0 <= close_count < 8)%Z →
  ∃ msg st e e_int no_det_count' close_count',
    call = Ok (msg, st, e, e_int, no_det_count', close_count') ∧
    (0 <= no_det_count' < 4)%Z ∧ (0 <= close_count' < 8)%Z.
Proof.
  intros Hwf Hdt Hndc Hc. rewrite (approach_unfold _ _ _ _ _ _ _ _ _ _ _ n Hwf).
  destruct (approach_loop_kept n Hwf Hdt)
    as (vars & -> & (_ & _ & _ & _ & _ & Hbound) & Hseen & Hnone).
  cbn [mbind result_bind]. specialize (Hbound Hc).
  destruct (target_seen duckiedata current_obj n).
  - destruct (Hseen eq_refl) as [Hin Hz]. rewrite Hin, Hz. cbn [negb].
    eexists _, _, _, _, _, _. split; [reflexivity|]. split; [lia | done].
  - rewrite (Hnone eq_refl). cbn.
    destruct (4 <=? _)%Z eqn:H4; [|apply Z.leb_gt in H4];
      eexists _, _, _, _, _, _; (split; [reflexivity|]); split; lia.
Qed.

End ApproachOutcome.

Section LastWins.
Context (car_control_msg : Twist2DStamped.t) (new_state : State).
Context (duckiedata : list float).
Context (current_obj prev_e prev_int delta_t : float).
Context (no_det_count close_count : Z) (v : float) (delivery : bool).

Local Abbreviation call :=
  (approach car_control_msg new_state duckiedata current_obj prev_e prev_int
     delta_t no_det_count close_count v delivery).
Local Abbreviation start :=
  (ApproachVars car_control_msg new_state prev_e prev_int [] no_det_count
     close_count v).
Local Abbreviation loop idx vars :=
  (approach_loop idx vars duckiedata current_obj prev_e prev_int delta_t
     delivery).

(** X9.  When several detections of a frame match, the last one decides:
    the returned error is minus its bearing, the returned integral is the
    integral passed in ([prev_int], not an earlier match's result) plus
    that error times the time step, clamped, and the command has the turn
    rate of that detection and the speed of its range band. *)
Theorem last_detection_wins (n : Z) (j : nat) (r theta : float) :
  well_formed duckiedata n →
  (delta_t =? 0) = false →
  (j < Z.to_nat n)%nat →
  is_target duckiedata current_obj j = true →
  duckiedata !! (j * 3 + 1)%nat = Some r →
  duckiedata !! (j * 3 + 2)%nat = Some theta →
  (∀ i, (j < i < Z.to_nat n)%nat → is_target duckiedata current_obj i = false) →
  ∃ msg st close_count',
    call = Ok (msg, st, 0 - theta,
               clamp (prev_int + (0 - theta) * delta_t) (-0.04) 0.04,
               0%Z, close_count') ∧
    Twist2DStamped.omega msg
    = heading_omega v theta prev_e prev_int delta_t * OMEGA_SCALING ∧
    Twist2DStamped.v msg
    = (if 0.25 <? r then v
       else if (r <=? 0.25) && (r_0 delivery <? r) then 0.8 * v
       else 0).
Proof.
  intros Hwf Hdt Hj Hid Hr Hth Hlast.
  assert (Hidx : ∀ i, (i < Z.to_nat n)%nat →
                      (i * 3 + 3 < length duckiedata)%nat)
    by (intros; eapply well_formed_index; [done|by apply elem_of_range]).
  rewrite (approach_unfold _ _ _ _ _ _ _ _ _ _ _ n Hwf), (range_split n j Hj).
  rewrite approach_loop_app.
  destruct (approach_loop_invariant duckiedata current_obj prev_e prev_int
    delta_t delivery (λ vars, av_v vars = v) (seq 0 j) start)
    as (vars1 & -> & Hv1); [| done | | done |].
  { intros i Hi%elem_of_seq. apply Hidx. lia. }
  { intros i vars vars' Hi%elem_of_seq Hv Hbody.
    destruct (lookup_lt_is_Some_2 duckiedata (i * 3 + 1)) as [r' Hr'];
      [specialize (Hidx i); lia|].
    destruct (lookup_lt_is_Some_2 duckiedata (i * 3 + 2)) as [th' Hth'];
      [specialize (Hidx i); lia|].
    destruct (approach_match_effect duckiedata current_obj prev_e prev_int
      delta_t delivery i vars r' th' Hr' Hth' Hdt) as (vars2 & Hb & Hv2 & _).
    rewrite Hbody in Hb. injection Hb as <-. congruence. }
  cbn [mbind result_bind approach_loop].
  unfold is_target in Hid.
  destruct (duckiedata !! (j * 3 + 3)%nat) as [id|] eqn:Eid; [|done].
  rewrite (getitem_Some _ _ _ Eid). cbn [mbind result_bind]. rewrite Hid.
  destruct (approach_match_effect duckiedata current_obj prev_e prev_int
    delta_t delivery j vars1 r theta Hr Hth Hdt)
    as (vars2 & -> & _ & _ & He & Hint & Hom & Hcmd & Hids & Hndc & _).
  cbn [mbind result_bind].
  rewrite approach_loop_no_target; cycle 1.
  { intros i Hi%elem_of_seq. apply Hidx. lia. }
  { apply existsb_false_iff. intros i Hi%elem_of_seq. apply Hlast. lia. }
  cbn [mbind result_bind]. rewrite Hids, contains_snoc by (by eapply eqb_true_refl).
  cbn [negb]. rewrite He, Hint, Hndc, Hv1 in *.
  eexists _, _, _. by split.
Qed.

End LastWins.

Section More.
Context (car_control_msg : Twist2DStamped.t) (new_state : State).
Context (duckiedata : list float).
Context (current_obj prev_e prev_int delta_t : float).
Context (no_det_count close_count : Z) (v : float) (delivery : bool).

Local Abbreviation call :=
  (approach car_control_msg new_state duckiedata current_obj prev_e prev_int
     delta_t no_det_count close_count v delivery).
Local Abbreviation start :=
  (ApproachVars car_control_msg new_state prev_e prev_int [] no_det_count
     close_count v).
Local Abbreviation loop idx vars :=
  (approach_loop idx vars duckiedata current_obj prev_e prev_int delta_t
     delivery).
Local Abbreviation good i :=
  (close_and_settled duckiedata current_obj prev_e prev_int delta_t v delivery
     i).

Lemma approach_loop_counts (idx : list nat) (vars : approach_vars) :
  (delta_t =? 0) = false →
  av_v vars = v →
  (∀ i, i ∈ idx → good i) →
  (0 <= av_close_count vars < 8)%Z →
  (av_close_count vars + Z.of_nat (length idx) <= 8)%Z →
  ∃ vars', loop idx vars = Ok vars' ∧
    (av_state vars', av_close_count vars')
    = (if (av_close_count vars + Z.of_nat (length idx) =? 8)%Z
       then (CAPTURED, 0%Z)
       else (av_state vars,
             (av_close_count vars + Z.of_nat (length idx))%Z)).
Proof.
  intros Hdt. revert vars.
  induction idx as [|i idx IH]; intros vars Hv Hgood Hc Hsum.
  { exists vars. split; [done|]. cbn [length].
    rewrite Z.add_0_r, (proj2 (Z.eqb_neq _ 8)) by lia. done. }
  destruct (Hgood i) as (Hid & r & theta & Hr & Hth & Hband & Hset); [left|].
  unfold is_target in Hid.
  destruct (duckiedata !! (i * 3 + 3)%nat) as [id|] eqn:Eid; [|done].
  cbn [approach_loop]. rewrite (getitem_Some _ _ _ Eid).
  cbn [mbind result_bind]. rewrite Hid.
  destruct (approach_match_effect duckiedata current_obj prev_e prev_int
    delta_t delivery i vars r theta Hr Hth Hdt)
    as (vars1 & -> & Hv1 & _ & _ & _ & _ & _ & _ & _ & Hsc).
  rewrite Hband, Hv, Hset in Hsc. cbn zeta in Hsc.
  cbn [mbind result_bind length]. rewrite Nat2Z.inj_succ.
  destruct (8 <=? av_close_count vars + 1)%Z eqn:H8;
    [apply Z.leb_le in H8 | apply Z.leb_gt in H8]; injection Hsc as Hs1 Hc1.
  - destruct idx as [|i' idx]; [|cbn [length] in Hsum; lia].
    exists vars1. split; [done|]. cbn [length].
    rewrite (proj2 (Z.eqb_eq _ 8)) by lia. congruence.
  - destruct (IH vars1) as (vars' & -> & Hres);
      [congruence | by (intros; apply Hgood; right) | lia
      | cbn [length] in Hsum; lia |].
    exists vars'. split; [done|]. rewrite Hres, Hc1, Hs1.
    by replace (av_close_count vars + 1 + Z.of_nat (length idx))%Z
      with (av_close_count vars + Z.succ (Z.of_nat (length idx)))%Z by lia.
Qed.

(** X10.  [close_count] counts matching detections, not frames: on a
    frame whose [n >= 1] detections all are the target, in the stop band
    and with a small turn rate, [close_count] advances by [n], and the
    frame captures (state CAPTURED, counter 0) when that reaches 8. *)
Theorem close_count_counts_detections (n : Z) :
  well_formed duckiedata n →
  (delta_t =? 0) = false →
  (1 <= n)%Z →
  (∀ i, (i < Z.to_nat n)%nat → good i) →
  (0 <= close_count)%Z →
  (close_count + n <= 8)%Z →
  ∃ msg e e_int,
    call = Ok (msg,
               (if (close_count + n =? 8)%Z then CAPTURED else new_state),
               e, e_int, 0%Z,
               (if (close_count + n =? 8)%Z then 0%Z else (close_count + n)%Z)).
Proof.
  intros Hwf Hdt Hn Hgood Hc Hsum.
  assert (Hidx : ∀ i, i ∈ range n → (i * 3 + 3 < length duckiedata)%nat)
    by (intros; by eapply well_formed_index).
  assert (Hseen : target_seen duckiedata current_obj n = true).
  { apply existsb_exists. exists 0%nat. split.
    - apply list_elem_of_In, elem_of_range. lia.
    - apply Hgood. lia. }
  rewrite (approach_unfold _ _ _ _ _ _ _ _ _ _ _ n Hwf).
  destruct (approach_loop_counts (range n) start Hdt eq_refl)
    as (vars & Hloop & Hres).
  { intros i Hi%elem_of_range. by apply Hgood. }
  { cbn. lia. }
  { cbn [av_close_count]. unfold range. rewrite length_seq. lia. }
  destruct (approach_loop_returns duckiedata current_obj prev_e prev_int
    delta_t delivery (range n) start Hidx Hdt) as (vars' & Hloop' & _ & Hin).
  rewrite Hloop in Hloop'. injection Hloop' as <-.
  destruct (Hin Hseen) as [Hcont Hndc].
  rewrite Hloop. cbn [mbind result_bind]. rewrite Hcont, Hndc. cbn [negb].
  cbn [av_close_count av_state] in Hres. unfold range in Hres.
  rewrite length_seq, Z2Nat.id in Hres by lia.
  eexists _, _, _. f_equal.
  destruct (close_count + n =? 8)%Z; injection Hres as -> ->; reflexivity.
Qed.

(** X11.  [approach] keeps the integral state in the anti-windup
    interval: if [prev_int] lies in [[-0.04, 0.04]] and no bearing of the
    frame makes the increment [(0 - theta) * delta_t] NaN, the returned
    [e_int] lies in the interval too. *)
Theorem approach_integral_within (n : Z) :
  well_formed duckiedata n →
  (delta_t =? 0) = false →
  within prev_int = true →
  (∀ i theta, (i < Z.to_nat n)%nat →
     duckiedata !! (i * 3 + 2)%nat = Some theta →
     is_nan ((0 - theta) * delta_t) = false) →
  ∃ msg st e e_int no_det_count' close_count',
    call = Ok (msg, st, e, e_int, no_det_count', close_count') ∧
    within e_int = true.
Proof.
  intros Hwf Hdt Hin Hnum.
  assert (Hidx : ∀ i, i ∈ range n → (i * 3 + 3 < length duckiedata)%nat)
    by (intros; by eapply well_formed_index).
  rewrite (approach_unfold _ _ _ _ _ _ _ _ _ _ _ n Hwf).
  destruct (approach_loop_invariant duckiedata current_obj prev_e prev_int
    delta_t delivery (λ vars, within (av_e_int vars) = true) (range n) start
    Hidx Hdt) as (vars & -> & Hvars); [|done|].
  { intros i vars vars' Hi _ Hbody.
    destruct (lookup_lt_is_Some_2 duckiedata (i * 3 + 1)) as [r Hr];
      [specialize (Hidx i Hi); lia|].
    destruct (lookup_lt_is_Some_2 duckiedata (i * 3 + 2)) as [theta Hth];
      [specialize (Hidx i Hi); lia|].
    destruct (approach_match_effect duckiedata current_obj prev_e prev_int
      delta_t delivery i vars r theta Hr Hth Hdt)
      as (vars1 & Hb & _ & _ & _ & Hint & _).
    rewrite Hbody in Hb. injection Hb as <-.
    rewrite Hint, <- anti_windup_clamp.
    apply anti_windup_within, within_add_not_nan; [done|].
    apply (Hnum i); [by apply elem_of_range | done]. }
  cbn [mbind result_bind].
  destruct (negb _); [destruct (4 <=? _)%Z|];
    eexists _, _, _, _, _, _; by split.
Qed.

(** X2.  With a zero time step, [approach] on a well-formed frame raises
    [ZeroDivisionError] if the frame holds the target, and otherwise
    returns as on any frame without the target: the time step is only used
    once a detection matches. *)
Theorem approach_zero_time_step (n : Z) :
  well_formed duckiedata n →
  (delta_t =? 0) = true →
  call =
  if target_seen duckiedata current_obj n then Raise ZeroDivisionError
  else Ok (halt car_control_msg,
           if (4 <=? no_det_count + 1)%Z then SCANNING else new_state,
           prev_e, prev_int,
           if (4 <=? no_det_count + 1)%Z then 0%Z else (no_det_count + 1)%Z,
           close_count).
Proof.
  intros Hwf Hdt.
  destruct (target_seen duckiedata current_obj n) eqn:Hseen;
    [|by apply (approach_no_target _ _ _ _ _ _ _ _ _ _ _ n)].
  rewrite (approach_unfold _ _ _ _ _ _ _ _ _ _ _ n Hwf).
  assert (Hidx : ∀ i, i ∈ range n → (i * 3 + 3 < length duckiedata)%nat)
    by (intros; by eapply well_formed_index).
  unfold target_seen in Hseen. revert Hidx Hseen. generalize (range n) as idx.
  generalize start as vars. intros vars idx. revert vars.
  induction idx as [|i idx IH]; intros vars Hidx Hseen; [done|].
  destruct (getitem_lt duckiedata (i * 3 + 3)) as (id & Hid & Hget);
    [apply Hidx; left|].
  cbn [existsb] in Hseen. unfold is_target at 1 in Hseen. rewrite Hid in Hseen.
  cbn [approach_loop]. rewrite Hget. cbn [mbind result_bind].
  destruct (id =? current_obj).
  - destruct (getitem_lt duckiedata (i * 3 + 1)) as (r & _ & Hr);
      [pose proof (Hidx i ltac:(left)); lia|].
    destruct (getitem_lt duckiedata (i * 3 + 2)) as (theta & _ & Hth);
      [pose proof (Hidx i ltac:(left)); lia|].
    unfold approach_match, PIDController, truediv.
    rewrite Hr, Hth. cbn [mbind result_bind]. by rewrite Hdt.
  - apply IH; [intros; apply Hidx; by right | done].
Qed.

(** X4.  [approach], with a time step that is not zero, raises
    [IndexError] on a frame that is shorter than its count announces,
    whatever the triples that are there. *)
Theorem approach_truncated_frame (n : Z) :
  frame_count duckiedata = Ok n →
  (length duckiedata < 3 * Z.to_nat n + 1)%nat →
  (delta_t =? 0) = false →
  call = Raise IndexError.
Proof.
  intros Hn Hshort Hdt. unfold approach. unfold frame_count in Hn.
  destruct (getitem duckiedata 0) as [count|] eqn:Hc; [|done].
  cbn [mbind result_bind] in Hn |- *. rewrite Hn. cbn [mbind result_bind].
  assert (Hlen : (0 < length duckiedata)%nat).
  { unfold getitem in Hc. destruct (duckiedata !! 0%nat) eqn:E; [|done].
    by apply lookup_lt_Some in E. }
  assert (Hbad : ∃ i, i ∈ range n ∧ (length duckiedata <= i * 3 + 3)%nat).
  { exists (Z.to_nat n - 1)%nat. split; [apply elem_of_range|]; lia. }
  enough (Hloop : ∀ idx vars,
    (∃ i, i ∈ idx ∧ (length duckiedata <= i * 3 + 3)%nat) →
    approach_loop idx vars duckiedata current_obj prev_e prev_int delta_t
      delivery = Raise IndexError) by (by rewrite Hloop).
  clear Hbad. induction idx as [|i idx IH]; intros vars (k & Hk & Hbad).
  { by apply elem_of_nil in Hk. }
  cbn [approach_loop]. unfold getitem at 1.
  destruct (duckiedata !! (i * 3 + 3)%nat) as [id|] eqn:Eid; [|done].
  apply lookup_lt_Some in Eid. cbn [mbind result_bind].
  assert (Hrest : ∃ i, i ∈ idx ∧ (length duckiedata <= i * 3 + 3)%nat).
  { exists k. split; [|done]. apply elem_of_cons in Hk as [->|Hk]; [lia|done]. }
  destruct (id =? current_obj); [|by apply IH].
  destruct (approach_match_returns duckiedata current_obj prev_e prev_int
    delta_t delivery i vars Eid Hdt) as (vars1 & -> & _).
  cbn [mbind result_bind]. by apply IH.
Qed.

End More.

(** X3.  [scanning] raises [IndexError] on a frame that is shorter than
    its count announces, whether or not the target is among the triples
    that are there. *)
Theorem scanning_truncated_frame (car_control_msg : Twist2DStamped.t)
    (new_state : State) (duckiedata : list float) (current_obj omega : float)
    (n : Z) :
  frame_count duckiedata = Ok n →
  (length duckiedata < 3 * Z.to_nat n + 1)%nat →
  scanning car_control_msg new_state duckiedata current_obj omega
  = Raise IndexError.
Proof.
  intros Hn Hshort. unfold scanning. unfold frame_count in Hn.
  destruct (getitem duckiedata 0) as [count|] eqn:Hc; [|done].
  cbn [mbind result_bind] in Hn |- *. rewrite Hn. cbn [mbind result_bind].
  assert (Hlen : (0 < length duckiedata)%nat).
  { unfold getitem in Hc. destruct (duckiedata !! 0%nat) eqn:E; [|done].
    by apply lookup_lt_Some in E. }
  assert (Hbad : ∃ i, i ∈ range n ∧ (length duckiedata <= i * 3 + 3)%nat).
  { exists (Z.to_nat n - 1)%nat. split; [apply elem_of_range|]; lia. }
  revert Hbad. generalize (range n) as idx.
  generalize (Twist2DStamped.set_omega omega
                (Twist2DStamped.set_v 0 car_control_msg)) as msg.
  generalize new_state as st. intros st msg idx. revert st msg.
  induction idx as [|i idx IH]; intros st msg (k & Hk & Hbad).
  { by apply elem_of_nil in Hk. }
  cbn [scanning_loop]. unfold getitem at 1.
  destruct (duckiedata !! (i * 3 + 3)%nat) as [id|] eqn:Eid; [|done].
  apply lookup_lt_Some in Eid. cbn [mbind result_bind].
  assert (Hrest : ∃ i, i ∈ idx ∧ (length duckiedata <= i * 3 + 3)%nat).
  { exists k. split; [|done]. apply elem_of_cons in Hk as [->|Hk]; [lia|done]. }
  destruct (id =? current_obj); by apply IH.
Qed.

(* ================================================================= *)
(** ** Errors and edge frames *)

Lemma eqb_zero_iff (x : float) : (x =? 0) = true ↔ x = 0 ∨ x = -0.
Proof.
  split.
  - rewrite eqb_spec. intros Hx.
    assert (Hz : ∃ s, Prim2SF x = S754_zero s).
    { destruct (Prim2SF x) as [s|[|]| |[|] ? ?]; try done. by exists s. }
    destruct Hz as [[|] Hs]; [right | left]; by apply Prim2SF_inj.
  - by intros [-> | ->].
Qed.

Lemma is_infinity_spec (x : float) :
  is_infinity x = true ↔ ∃ s, Prim2SF x = S754_infinity s.
Proof.
  unfold is_infinity. rewrite eqb_spec, abs_spec.
  destruct (Prim2SF x) as [[|]|s| |[|] ? ?]; cbn; split; try done;
    try (by intros [? ?]); by eauto.
Qed.

(** X1.  [PIDController] raises [ZeroDivisionError] exactly when
    [delta_t] is a zero of either sign; for every other time step, NaN and
    the infinities included, it returns, with [e] and the clamped integral
    as computed before the division. *)
Theorem PIDController_raises_only_on_zero_step
    (v_0 theta_ref theta_hat prev_e prev_int delta_t : float)
    (gains : float * float * float) :
  (PIDController v_0 theta_ref theta_hat prev_e prev_int delta_t gains
   = Raise ZeroDivisionError ↔ delta_t = 0 ∨ delta_t = -0) ∧
  (delta_t ≠ 0 → delta_t ≠ -0 →
   ∃ omega e_der,
     PIDController v_0 theta_ref theta_hat prev_e prev_int delta_t gains
     = Ok (v_0, omega, theta_ref - theta_hat,
           max (min (prev_int + (theta_ref - theta_hat) * delta_t) INT_MAX)
             (- INT_MAX),
           e_der)).
Proof.
  rewrite <- eqb_zero_iff. destruct (delta_t =? 0) eqn:Hdt.
  - split; [|intros H1 H2; apply eqb_zero_iff in Hdt as [?|?]; done].
    unfold PIDController, truediv. rewrite Hdt. done.
  - destruct (PIDController_integral v_0 theta_ref theta_hat prev_e prev_int
      delta_t gains Hdt) as (omega & e_der & Hpid).
    split; [|by eauto]. rewrite Hpid. done.
Qed.

(** X5.  What [scanning] and [approach] do about the count
    [duckiedata[0]]: an empty list raises [IndexError], a NaN count raises
    [ValueError] and an infinite count raises [OverflowError], before any
    detection is read. *)
Theorem frame_count_errors (car_control_msg : Twist2DStamped.t)
    (new_state : State) (duckiedata : list float)
    (current_obj prev_e prev_int delta_t omega : float)
    (no_det_count close_count : Z) (v : float) (delivery : bool) :
  let scan :=
    scanning car_control_msg new_state duckiedata current_obj omega in
  let appr :=
    approach car_control_msg new_state duckiedata current_obj prev_e prev_int
      delta_t no_det_count close_count v delivery in
  (duckiedata = [] → scan = Raise IndexError ∧ appr = Raise IndexError) ∧
  (∀ count, duckiedata !! 0%nat = Some count → is_nan count = true →
     scan = Raise ValueError ∧ appr = Raise ValueError) ∧
  (∀ count, duckiedata !! 0%nat = Some count → is_infinity count = true →
     scan = Raise OverflowError ∧ appr = Raise OverflowError).
Proof.
  intros scan appr. subst scan appr. unfold scanning, approach.
  split; [by intros ->|]. split.
  - intros count Hc Hnan. apply is_nan_spec in Hnan.
    rewrite (getitem_Some _ _ _ Hc). cbn [mbind result_bind].
    unfold round. by rewrite Hnan.
  - intros count Hc [s Hinf]%is_infinity_spec.
    rewrite (getitem_Some _ _ _ Hc). cbn [mbind result_bind].
    unfold round. by rewrite Hinf.
Qed.

(** X6.  A count that rounds to zero or below reads no detection,
    whatever follows it in the list: [scanning] returns the scanning
    command and the state it was given, and [approach] returns what it
    returns on a frame without the target. *)
Theorem nonpositive_count_reads_nothing (car_control_msg : Twist2DStamped.t)
    (new_state : State) (duckiedata : list float)
    (current_obj prev_e prev_int delta_t omega : float)
    (no_det_count close_count : Z) (v : float) (delivery : bool)
    (count : float) (n : Z) :
  duckiedata !! 0%nat = Some count →
  round count = Ok n →
  (n <= 0)%Z →
  scanning car_control_msg new_state duckiedata current_obj omega
  = Ok (Twist2DStamped.Build (Twist2DStamped.header car_control_msg) 0 omega,
        new_state) ∧
  approach car_control_msg new_state duckiedata current_obj prev_e prev_int
    delta_t no_det_count close_count v delivery
  = Ok (halt car_control_msg,
        if (4 <=? no_det_count + 1)%Z then SCANNING else new_state,
        prev_e, prev_int,
        if (4 <=? no_det_count + 1)%Z then 0%Z else (no_det_count + 1)%Z,
        close_count).
Proof.
  intros Hc Hn Hle.
  assert (Hwf : well_formed duckiedata n).
  { split.
    - unfold frame_count. rewrite (getitem_Some _ _ _ Hc). done.
    - apply lookup_lt_Some in Hc. lia. }
  assert (Hnone : target_seen duckiedata current_obj n = false).
  { unfold target_seen, range. by replace (Z.to_nat n) with 0%nat by lia. }
  split.
  - rewrite (scanning_result _ _ _ _ _ n Hwf). by rewrite Hnone.
  - by apply (approach_no_target _ _ _ _ _ _ _ _ _ _ _ n).
Qed.

(** X12.  [scanning] and [approach] agree on what a sighting is: a frame
    on which [scanning] returns IDENTIFIED is, for [approach], a frame with
    the target: it returns [no_det_count = 0] and never SCANNING (the state
    passed in, or CAPTURED). *)
Theorem identified_frame_is_approached (scan_msg car_control_msg : Twist2DStamped.t)
    (new_state : State) (duckiedata : list float)
    (current_obj prev_e prev_int delta_t omega : float)
    (no_det_count close_count : Z) (v : float) (delivery : bool)
    (n : Z) (msg : Twist2DStamped.t) :
  well_formed duckiedata n →
  (delta_t =? 0) = false →
  scanning scan_msg SCANNING duckiedata current_obj omega
  = Ok (msg, IDENTIFIED) →
  ∃ msg' st e e_int close_count',
    approach car_control_msg new_state duckiedata current_obj prev_e prev_int
      delta_t no_det_count close_count v delivery
    = Ok (msg', st, e, e_int, 0%Z, close_count') ∧
    (st = new_state ∨ st = CAPTURED).
Proof.
  intros Hwf Hdt Hscan. rewrite (scanning_result _ _ _ _ _ n Hwf) in Hscan.
  destruct (target_seen duckiedata current_obj n) eqn:Hseen; [|done].
  by apply (approach_target _ _ _ _ _ _ _ _ _ _ _ n).
Qed.

(* ================================================================= *)
(** ** More on the perception node *)

Section Node.
Context `{Perception}.

Local Abbreviation period := (1 + Z.of_nat NUMBER_FRAMES_SKIPPED)%Z.

(** X13.  [image_cb] publishes at most one command per image, and none
    exactly when the node is set up, the frame is due for processing and
    the image cannot be decoded. *)
Theorem image_cb_publishes_at_most_once (self : ObjectDetectionNode.t)
    (image_msg : CompressedImage) :
  (length (image_cb self image_msg).2 <= 1)%nat ∧
  ((image_cb self image_msg).2 = [] ↔
     initialized self = true ∧
     ((frame_id self + 1) `mod` period = 0)%Z ∧
     compressed_imgmsg_to_cv2 image_msg = None).
Proof.
  unfold image_cb. destruct (initialized self); cbn [negb].
  2: { rewrite pub_car_commands_state. cbn. split; [lia|]. split; [done|].
       by intros [? _]. }
  cbn [frame_id set_frame_id].
  destruct (Z.eqb_spec ((frame_id self + 1) `mod` period) 0) as [Hdue|Hskip];
    cbn [negb].
  2: { rewrite pub_car_commands_state. cbn. split; [lia|]. split; [done|].
       by intros (_ & ? & _). }
  destruct (compressed_imgmsg_to_cv2 image_msg) as [bgr|].
  - destruct (predict bgr) as [[bboxes classes] scores].
    rewrite pub_car_commands_state. cbn. split; [lia|]. split; [done|].
    by intros (_ & _ & ?).
  - cbn. split; [lia|]. done.
Qed.

Lemma image_cb_frame_id (self : ObjectDetectionNode.t)
    (image_msg : CompressedImage) :
  initialized self = true →
  frame_id (image_cb self image_msg).1 = ((frame_id self + 1) `mod` period)%Z ∧
  initialized (image_cb self image_msg).1 = true.
Proof.
  intros Hinit. unfold image_cb. rewrite Hinit. cbn [negb frame_id set_frame_id].
  destruct (negb _); [by rewrite pub_car_commands_state|].
  destruct (compressed_imgmsg_to_cv2 image_msg) as [bgr|]; [|done].
  destruct (predict bgr) as [[bboxes classes] scores].
  rewrite pub_car_commands_state. by destruct (det2bool _ _ _).
Qed.

(** X14.  On a node that is set up, [frame_id] counts the camera images
    modulo [1 + NUMBER_FRAMES_SKIPPED], whether they were skipped,
    processed or undecodable; episode starts and the shutdown hook do not
    touch it. *)
Theorem frame_id_counts_images (evs : list Event) (self : ObjectDetectionNode.t) :
  initialized self = true →
  (0 <= frame_id self < period)%Z →
  frame_id (spin self evs).1
  = ((frame_id self + Z.of_nat (images evs)) `mod` period)%Z.
Proof.
  revert self. induction evs as [|ev evs IH]; intros self Hinit Hrange.
  { cbn. rewrite Z.add_0_r, Z.mod_small; done. }
  cbn [spin].
  destruct ev as [header|image_msg|].
  - cbn [dispatch]. unfold cb_episode_start. rewrite pub_car_commands_state.
    specialize (IH (set_avoid_duckies false self) Hinit Hrange).
    destruct (spin (set_avoid_duckies false self) evs) as [self' out].
    cbn in IH |- *. done.
  - cbn [dispatch].
    destruct (image_cb_frame_id self image_msg Hinit) as [Hid Hinit'].
    destruct (image_cb self image_msg) as [self1 out1]. cbn in Hid, Hinit'.
    assert (Hrange' : (0 <= frame_id self1 < period)%Z)
      by (rewrite Hid; apply Z.mod_pos_bound; lia).
    specialize (IH self1 Hinit' Hrange').
    destruct (spin self1 evs) as [self' out]. cbn in IH |- *.
    rewrite IH, Hid. cbn [images].
    rewrite Zplus_mod_idemp_l. f_equal. lia.
  - cbn [dispatch on_shutdown]. specialize (IH self Hinit Hrange).
    destruct (spin self evs) as [self' out]. cbn in IH |- *. done.
Qed.

(** X15.  Only a detection sets the latch: if [avoid_duckies] is false
    before [image_cb] and true after it, the image was processed and some
    detection of it passes the box, class and score filters. *)
Theorem latch_set_only_by_detection (self : ObjectDetectionNode.t)
    (image_msg : CompressedImage) :
  avoid_duckies self = false →
  avoid_duckies (image_cb self image_msg).1 = true →
  ∃ bgr bboxes classes scores i,
    processed self image_msg bgr ∧
    predict bgr = (bboxes, classes, scores) ∧
    passes_all bboxes classes scores i.
Proof.
  intros Hoff. unfold image_cb, processed.
  destruct (initialized self); cbn [negb];
    [|rewrite pub_car_commands_state; cbn; congruence].
  cbn [frame_id set_frame_id].
  destruct (Z.eqb_spec ((frame_id self + 1) `mod` period) 0) as [Hdue|Hskip];
    cbn [negb]; [|rewrite pub_car_commands_state; cbn; congruence].
  destruct (compressed_imgmsg_to_cv2 image_msg) as [bgr|]; [|cbn; congruence].
  destruct (predict bgr) as [[bboxes classes] scores] eqn:Hpred.
  destruct (det2bool bboxes classes scores) eqn:Hdet;
    rewrite pub_car_commands_state; cbn; [|congruence].
  intros _. apply det2bool_true in Hdet as [i Hi].
  by exists bgr, bboxes, classes, scores, i.
Qed.

Lemma pub_car_commands_straight (self : ObjectDetectionNode.t) (stop : bool)
    (header : Z) (speed : float) :
  v self = speed →
  Forall (λ m, Twist2DStamped.omega m = 0 ∧
               (Twist2DStamped.v m = 0 ∨ Twist2DStamped.v m = speed))
    (pub_car_commands self stop header).2.
Proof.
  intros <-. rewrite pub_car_commands_state. cbn.
  apply Forall_cons_2; [|apply Forall_nil_2]. cbn. destruct stop; auto.
Qed.

Lemma dispatch_commands (self : ObjectDetectionNode.t) (ev : Event) :
  v (dispatch self ev).1 = v self ∧
  initialized (dispatch self ev).1 = initialized self ∧
  Forall (λ m, Twist2DStamped.omega m = 0 ∧
               (Twist2DStamped.v m = 0 ∨ Twist2DStamped.v m = v self))
    (dispatch self ev).2.
Proof.
  destruct ev as [header|image_msg|]; cbn [dispatch].
  - unfold cb_episode_start. split; [|split].
    + by rewrite pub_car_commands_state.
    + by rewrite pub_car_commands_state.
    + by apply pub_car_commands_straight.
  - unfold image_cb. destruct (initialized self) eqn:Hinit; cbn [negb].
    2: { split; [|split]; [by rewrite pub_car_commands_state..|].
         by apply pub_car_commands_straight. }
    cbn [frame_id set_frame_id]. destruct (negb _).
    { split; [|split]; [by rewrite pub_car_commands_state..|].
      by apply pub_car_commands_straight. }
    destruct (compressed_imgmsg_to_cv2 image_msg) as [bgr|].
    2: { cbn. split; [done|]. split; [done|]. apply Forall_nil_2. }
    destruct (predict bgr) as [[bboxes classes] scores].
    destruct (det2bool bboxes classes scores);
      (split; [|split]; [by rewrite pub_car_commands_state..|]);
      by apply pub_car_commands_straight.
  - cbn. split; [done|]. split; [done|].
    apply Forall_cons_2; [|apply Forall_nil_2]. cbn. auto.
Qed.

(** X16.  Whatever events arrive, every command the node publishes has
    [omega = 0] and a speed that is either 0 or the node's [self.v], and
    [self.v] and [self.initialized] never change. *)
Theorem node_drives_straight (evs : list Event) (self : ObjectDetectionNode.t) :
  v (spin self evs).1 = v self ∧
  initialized (spin self evs).1 = initialized self ∧
  Forall (λ m, Twist2DStamped.omega m = 0 ∧
               (Twist2DStamped.v m = 0 ∨ Twist2DStamped.v m = v self))
    (spin self evs).2.
Proof.
  revert self. induction evs as [|ev evs IH]; intros self; [by cbn|].
  cbn [spin]. destruct (dispatch_commands self ev) as (Hv & Hinit & Hout).
  destruct (dispatch self ev) as [self1 out1]. cbn in Hv, Hinit, Hout.
  destruct (IH self1) as (Hv' & Hinit' & Hout').
  destruct (spin self1 evs) as [self2 out2]. cbn in *.
  split; [congruence|]. split; [congruence|].
  apply Forall_app. split; [done|]. by rewrite <- Hv.
Qed.

(** X17.  An episode start re-arms the node: after it, a processed image
    without a passing detection is answered with the node's speed
    [self.v], whatever the latch was before; the episode start itself is
    answered with a stop. *)
Theorem episode_start_rearms (self : ObjectDetectionNode.t) (header : Z)
    (image_msg : CompressedImage) (bgr : Image) (bboxes : list BBox)
    (classes : list Z) (scores : list float) :
  processed self image_msg bgr →
  predict bgr = (bboxes, classes, scores) →
  (∀ i, ¬ passes_all bboxes classes scores i) →
  spin self [EpisodeStart header; CameraImage image_msg]
  = (set_frame_id 0 (set_avoid_duckies false self),
     [Twist2DStamped.Build header 0 0;
      Twist2DStamped.Build (image_header image_msg) (v self) 0]).
Proof.
  intros Hproc Hpred Hnone.
  assert (Hdet : det2bool bboxes classes scores = false).
  { apply not_true_is_false. intros [i Hi]%det2bool_true. by apply (Hnone i). }
  cbn [spin dispatch]. unfold cb_episode_start.
  rewrite pub_car_commands_state.
  rewrite (image_cb_processed (set_avoid_duckies false self) image_msg bgr)
    by exact Hproc.
  by rewrite Hpred, Hdet, pub_car_commands_state.
Qed.

(** X18.  [det2bool], which intersects the index sets of the three
    masks, is true exactly when some detection passes all three filters:
    it equals a one-pass test over the batch zipped up to its shortest
    sequence. *)
Theorem det2bool_some_detection_passes (bboxes : list BBox) (classes : list Z)
    (scores : list float) :
  det2bool bboxes classes scores
  = existsb (λ d, filter_by_bboxes d.1.1 && filter_by_classes d.1.2
                  && filter_by_scores d.2)
      (zip (zip bboxes classes) scores).
Proof.
  apply eq_true_iff_eq. rewrite det2bool_true, existsb_exists. split.
  - intros (i & box & cls & score & Hb & Hc & Hs & Hfb & Hfc & Hfs).
    exists (box, cls, score). split.
    + apply list_elem_of_In, list_elem_of_lookup. exists i.
      apply lookup_zip_with_Some. exists (box, cls), score. split; [done|].
      split; [|done]. apply lookup_zip_with_Some. by exists box, cls.
    + cbn. by rewrite Hfb, Hfc, Hfs.
  - intros ([[box cls] score] & Hin & Hf). cbn in Hf.
    apply andb_true_iff in Hf as [[Hfb Hfc]%andb_true_iff Hfs].
    apply list_elem_of_In, list_elem_of_lookup in Hin as [i Hi].
    apply lookup_zip_with_Some in Hi as (bc & sc & [= <- <-] & Hbc & Hs).
    apply lookup_zip_with_Some in Hbc as (b & c & [= <- <-] & Hb & Hc).
    by exists i, box, cls, score.
Qed.

End Node.

(* ================================================================= *)
(** ** The further properties at concrete inputs *)

Lemma approach_zero_time_step_witness :
  (well_formed (fr_data close_frame) 1 ∧ (0 =? 0) = true) ∧
  approach demo_msg IDENTIFIED (fr_data close_frame) 2 0 0 0 0 0 V_0 false
  = Raise ZeroDivisionError.
Proof.
  assert (Hwf : well_formed (fr_data close_frame) 1)
    by (split; [reflexivity | simpl; lia]).
  split; [exact (conj Hwf eq_refl)|].
  exact (approach_zero_time_step demo_msg IDENTIFIED (fr_data close_frame) 2
           0 0 0 0 0 V_0 false 1 Hwf eq_refl).
Defined.

Lemma scanning_truncated_frame_witness :
  (frame_count short_frame = Ok 2%Z ∧
   (length short_frame < 3 * Z.to_nat 2 + 1)%nat) ∧
  scanning demo_msg SCANNING short_frame 2 OMEGA_0 = Raise IndexError.
Proof.
  assert (Hshort : (length short_frame < 3 * Z.to_nat 2 + 1)%nat)
    by (simpl; lia).
  split; [exact (conj eq_refl Hshort)|].
  exact (scanning_truncated_frame demo_msg SCANNING short_frame 2 OMEGA_0 2
           eq_refl Hshort).
Defined.

Lemma approach_truncated_frame_witness :
  (frame_count short_frame = Ok 2%Z ∧
   (length short_frame < 3 * Z.to_nat 2 + 1)%nat ∧
   (0.1 =? 0) = false) ∧
  approach demo_msg IDENTIFIED short_frame 2 0 0 0.1 0 0 V_0 false
  = Raise IndexError.
Proof.
  assert (Hshort : (length short_frame < 3 * Z.to_nat 2 + 1)%nat)
    by (simpl; lia).
  split; [exact (conj eq_refl (conj Hshort eq_refl))|].
  exact (approach_truncated_frame demo_msg IDENTIFIED short_frame 2 0 0 0.1
           0 0 V_0 false 2 eq_refl Hshort eq_refl).
Defined.

Lemma nonpositive_count_reads_nothing_witness :
  (uncounted_frame !! 0%nat = Some (-1) ∧ round (-1) = Ok (-1)%Z ∧
   (-1 <= 0)%Z) ∧
  scanning demo_msg IDENTIFIED uncounted_frame 2 OMEGA_0
  = Ok (Twist2DStamped.Build 7 0 OMEGA_0, IDENTIFIED) ∧
  approach demo_msg IDENTIFIED uncounted_frame 2 0 0 0.1 0 5 V_0 false
  = Ok (halt demo_msg, IDENTIFIED, 0, 0, 1%Z, 5%Z).
Proof.
  assert (Hle : (-1 <= 0)%Z) by lia.
  split; [exact (conj eq_refl (conj eq_refl Hle))|].
  exact (nonpositive_count_reads_nothing demo_msg IDENTIFIED uncounted_frame 2
           0 0 0.1 OMEGA_0 0 5 V_0 false (-1) (-1) eq_refl eq_refl Hle).
Defined.

Lemma approach_state_and_command_witness :
  (well_formed two_detections 2 ∧ (0.1 =? 0) = false) ∧
  ∃ msg st e e_int no_det_count' close_count',
    approach demo_msg IDENTIFIED two_detections 2 0 0 0.1 3 7 V_0 false
    = Ok (msg, st, e, e_int, no_det_count', close_count') ∧
    Twist2DStamped.header msg = Twist2DStamped.header demo_msg ∧
    (Twist2DStamped.v msg = 0 ∨ Twist2DStamped.v msg = 0.8 * V_0 ∨
     Twist2DStamped.v msg = V_0) ∧
    (target_seen two_detections 2 2 = true →
       (st = IDENTIFIED ∨ st = CAPTURED) ∧ no_det_count' = 0%Z) ∧
    (target_seen two_detections 2 2 = false →
       (st = IDENTIFIED ∨ st = SCANNING) ∧
       Twist2DStamped.v msg = 0 ∧ Twist2DStamped.omega msg = 0).
Proof.
  assert (Hwf : well_formed two_detections 2)
    by (split; [reflexivity | simpl; lia]).
  split; [exact (conj Hwf eq_refl)|].
  exact (approach_state_and_command demo_msg IDENTIFIED two_detections 2 0 0
           0.1 3 7 V_0 false 2 Hwf eq_refl).
Defined.

Lemma approach_counters_bounded_witness :
  (well_formed two_detections 2 ∧ (0.1 =? 0) = false ∧
   (0 <= 3 < 4)%Z ∧ (0 <= 7 < 8)%Z) ∧
  ∃ msg st e e_int no_det_count' close_count',
    approach demo_msg IDENTIFIED two_detections 2 0 0 0.1 3 7 V_0 false
    = Ok (msg, st, e, e_int, no_det_count', close_count') ∧
    (0 <= no_det_count' < 4)%Z ∧ (0 <= close_count' < 8)%Z.
Proof.
  assert (Hwf : well_formed two_detections 2)
    by (split; [reflexivity | simpl; lia]).
  assert (Hn : (0 <= 3 < 4)%Z) by lia.
  assert (Hc : (0 <= 7 < 8)%Z) by lia.
  split; [exact (conj Hwf (conj eq_refl (conj Hn Hc)))|].
  exact (approach_counters_bounded demo_msg IDENTIFIED two_detections 2 0 0
           0.1 3 7 V_0 false 2 Hwf eq_refl Hn Hc).
Defined.

Lemma last_detection_wins_witness :
  (well_formed far_then_close 2 ∧ (0.1 =? 0) = false ∧
   (1 < Z.to_nat 2)%nat ∧ is_target far_then_close 2 1 = true ∧
   far_then_close !! (1 * 3 + 1)%nat = Some 0.1 ∧
   far_then_close !! (1 * 3 + 2)%nat = Some 0.01 ∧
   (∀ i, (1 < i < Z.to_nat 2)%nat → is_target far_then_close 2 i = false)) ∧
  ∃ msg st close_count',
    approach demo_msg IDENTIFIED far_then_close 2 0 0 0.1 0 0 V_0 false
    = Ok (msg, st, 0 - 0.01, clamp (0 + (0 - 0.01) * 0.1) (-0.04) 0.04, 0%Z,
          close_count') ∧
    Twist2DStamped.omega msg = heading_omega V_0 0.01 0 0 0.1 * OMEGA_SCALING ∧
    Twist2DStamped.v msg
    = (if 0.25 <? 0.1 then V_0
       else if (0.1 <=? 0.25) && (r_0 false <? 0.1) then 0.8 * V_0
       else 0).
Proof.
  assert (Hwf : well_formed far_then_close 2)
    by (split; [reflexivity | simpl; lia]).
  assert (Hj : (1 < Z.to_nat 2)%nat) by (simpl; lia).
  assert (Hlast : ∀ i, (1 < i < Z.to_nat 2)%nat →
                       is_target far_then_close 2 i = false)
    by (intros i Hi; simpl in Hi; lia).
  split; [exact (conj Hwf (conj eq_refl (conj Hj (conj eq_refl (conj eq_refl
                   (conj eq_refl Hlast))))))|].
  exact (last_detection_wins demo_msg IDENTIFIED far_then_close 2 0 0 0.1 0 0
           V_0 false 2 1 0.1 0.01 Hwf eq_refl Hj eq_refl eq_refl eq_refl
           Hlast).
Defined.

Lemma close_count_counts_detections_witness :
  (well_formed twice_close 2 ∧ (0.1 =? 0) = false ∧ (1 <= 2)%Z ∧
   (∀ i, (i < Z.to_nat 2)%nat →
      close_and_settled twice_close 2 0 0 0.1 V_0 false i) ∧
   (0 <= 6)%Z ∧ (6 + 2 <= 8)%Z) ∧
  ∃ msg e e_int,
    approach demo_msg IDENTIFIED twice_close 2 0 0 0.1 0 6 V_0 false
    = Ok (msg, CAPTURED, e, e_int, 0%Z, 0%Z).
Proof.
  assert (Hwf : well_formed twice_close 2)
    by (split; [reflexivity | simpl; lia]).
  assert (Hn : (1 <= 2)%Z) by lia.
  assert (Hgood : ∀ i, (i < Z.to_nat 2)%nat →
                       close_and_settled twice_close 2 0 0 0.1 V_0 false i).
  { intros i Hi. simpl in Hi.
    destruct i as [|[|i]]; [| |lia];
      (split; [reflexivity|]; exists 0.1, 0.01; repeat split; reflexivity). }
  assert (Hc : (0 <= 6)%Z) by lia.
  assert (Hsum : (6 + 2 <= 8)%Z) by lia.
  split; [exact (conj Hwf (conj eq_refl (conj Hn (conj Hgood (conj Hc Hsum)))))|].
  exact (close_count_counts_detections demo_msg IDENTIFIED twice_close 2 0 0
           0.1 0 6 V_0 false 2 Hwf eq_refl Hn Hgood Hc Hsum).
Defined.

Lemma approach_integral_within_witness :
  (well_formed far_then_close 2 ∧ (0.1 =? 0) = false ∧
   within 0.04 = true ∧
   (∀ i theta, (i < Z.to_nat 2)%nat →
      far_then_close !! (i * 3 + 2)%nat = Some theta →
      is_nan ((0 - theta) * 0.1) = false)) ∧
  ∃ msg st e e_int no_det_count' close_count',
    approach demo_msg IDENTIFIED far_then_close 2 0 0.04 0.1 0 0 V_0 false
    = Ok (msg, st, e, e_int, no_det_count', close_count') ∧
    within e_int = true.
Proof.
  assert (Hwf : well_formed far_then_close 2)
    by (split; [reflexivity | simpl; lia]).
  assert (Hnum : ∀ i theta, (i < Z.to_nat 2)%nat →
                   far_then_close !! (i * 3 + 2)%nat = Some theta →
                   is_nan ((0 - theta) * 0.1) = false).
  { intros i theta Hi Hth. simpl in Hi.
    destruct i as [|[|i]]; [| |lia]; simpl in Hth;
      injection Hth as <-; reflexivity. }
  split; [exact (conj Hwf (conj eq_refl (conj eq_refl Hnum)))|].
  exact (approach_integral_within demo_msg IDENTIFIED far_then_close 2 0 0.04
           0.1 0 0 V_0 false 2 Hwf eq_refl eq_refl Hnum).
Defined.

Lemma identified_frame_is_approached_witness :
  (well_formed two_detections 2 ∧ (0.1 =? 0) = false ∧
   scanning demo_msg SCANNING two_detections 2 OMEGA_0
   = Ok (halt demo_msg, IDENTIFIED)) ∧
  ∃ msg' st e e_int close_count',
    approach demo_msg IDENTIFIED two_detections 2 0 0 0.1 3 0 V_0 false
    = Ok (msg', st, e, e_int, 0%Z, close_count') ∧
    (st = IDENTIFIED ∨ st = CAPTURED).
Proof.
  assert (Hwf : well_formed two_detections 2)
    by (split; [reflexivity | simpl; lia]).
  split; [exact (conj Hwf (conj eq_refl eq_refl))|].
  exact (identified_frame_is_approached demo_msg demo_msg IDENTIFIED
           two_detections 2 0 0 0.1 OMEGA_0 3 0 V_0 false 2 (halt demo_msg)
           Hwf eq_refl eq_refl).
Defined.

Lemma frame_id_counts_images_witness :
  (ObjectDetectionNode.initialized ObjectDetectionNode.init = true ∧
   (0 <= ObjectDetectionNode.frame_id ObjectDetectionNode.init
      < 1 + Z.of_nat (@NUMBER_FRAMES_SKIPPED skipping_perception))%Z) ∧
  ObjectDetectionNode.frame_id
    (@spin skipping_perception ObjectDetectionNode.init four_images).1
  = ((ObjectDetectionNode.frame_id ObjectDetectionNode.init
      + Z.of_nat (@images skipping_perception four_images))
     `mod` (1 + Z.of_nat (@NUMBER_FRAMES_SKIPPED skipping_perception)))%Z.
Proof.
  assert (Hrange :
    (0 <= ObjectDetectionNode.frame_id ObjectDetectionNode.init
       < 1 + Z.of_nat (@NUMBER_FRAMES_SKIPPED skipping_perception))%Z)
    by (simpl; lia).
  split; [exact (conj eq_refl Hrange)|].
  exact (@frame_id_counts_images skipping_perception four_images
           ObjectDetectionNode.init eq_refl Hrange).
Defined.

Lemma latch_set_only_by_detection_witness :
  (ObjectDetectionNode.avoid_duckies ObjectDetectionNode.init = false ∧
   ObjectDetectionNode.avoid_duckies
     (ObjectDetectionNode.image_cb ObjectDetectionNode.init duckie_image).1
   = true) ∧
  ∃ bgr bboxes classes scores i,
    processed ObjectDetectionNode.init duckie_image bgr ∧
    predict bgr = (bboxes, classes, scores) ∧
    passes_all bboxes classes scores i.
Proof.
  split; [exact (conj eq_refl eq_refl)|].
  exact (latch_set_only_by_detection ObjectDetectionNode.init duckie_image
           eq_refl eq_refl).
Defined.

Lemma episode_start_rearms_witness :
  (processed latched_node empty_image [] ∧
   predict ([] : list (Z * Z * float)) = ([], [], []) ∧
   (∀ i, ¬ passes_all [] [] [] i)) ∧
  spin latched_node [EpisodeStart 9; CameraImage empty_image]
  = (ObjectDetectionNode.set_frame_id 0
       (ObjectDetectionNode.set_avoid_duckies false latched_node),
     [Twist2DStamped.Build 9 0 0;
      Twist2DStamped.Build (image_header empty_image)
        (ObjectDetectionNode.v latched_node) 0]).
Proof.
  assert (Hproc : processed latched_node empty_image [])
    by (repeat split; reflexivity).
  assert (Hnone : ∀ i, ¬ passes_all [] [] [] i).
  { intros i (box & cls & score & Hbox & _). simpl in Hbox. discriminate Hbox. }
  split; [exact (conj Hproc (conj eq_refl Hnone))|].
  exact (episode_start_rearms latched_node 9 empty_image [] [] [] [] Hproc
           eq_refl Hnone).
Defined.
